(** * whatsapp_crm: the customer ingestion pipeline

    A shallow embedding of [backend/utils/classifier.py],
    [backend/services/customer_service.py] and [backend/routes/customers.py]:
    parsing of an uploaded file into a data frame, normalisation of its
    columns, classification of every row, construction of the customer
    documents, and the listing and clearing of a user's customers. *)

From Stdlib Require Import ZArith List String Ascii Bool Lia.
From Stdlib Require Import Floats DecimalString Sorted.
From stdpp Require Import gmap strings list fin_maps.

Local Open Scope string_scope.
Local Open Scope Z_scope.

(** ** Python exceptions and results *)

(** The exception classes the pipeline can meet.  A subclass is filed under
    the class the handlers of the code test for: pandas' [EmptyDataError] and
    [ParserError] are [ValueError]s; [OtherError] is any class that is only a
    subclass of [Exception]. *)
Inductive exn_class :=
  | ValueError
  | TypeError
  | AttributeError
  | OverflowError
  | KeyError
  | OtherError.

(** [HTTPExc] is FastAPI's [HTTPException(status_code, detail)]. *)
Inductive exn :=
  | Exc (c : exn_class) (msg : string)
  | HTTPExc (status_code : Z) (detail : string).

(** The outcome of a call: a value, a raised exception, or [Unmodelled] when
    the call leaves the part of Python and pandas that this development
    describes (the cases are listed where they arise). *)
Inductive result (A : Type) : Type :=
  | Ok (a : A)
  | Raise (e : exn)
  | Unmodelled.
Arguments Ok {A} a.
Arguments Raise {A} e.
Arguments Unmodelled {A}.

Global Instance result_ret : MRet result := fun _ a => Ok a.

Global Instance result_bind : MBind result := fun _ _ k r =>
  match r with
  | Ok a => k a
  | Raise e => Raise e
  | Unmodelled => Unmodelled
  end.

Definition is_ValueError (e : exn) : bool :=
  match e with
  | Exc ValueError _ => true
  | _ => false
  end.

(** [str(e)]: the message of a built-in exception, and Starlette's
    ["{status_code}: {detail}"] for an [HTTPException]. *)
Definition str_of_Z (z : Z) : string := NilZero.string_of_int (Z.to_int z).

Definition str_exn (e : exn) : string :=
  match e with
  | Exc _ msg => msg
  | HTTPExc code detail => str_of_Z code ++ ": " ++ detail
  end.

(** ** Strings

    A [string] is read as a sequence of code points below 256. *)

Definition chars (s : string) : list ascii := list_ascii_of_string s.
Definition text (cs : list ascii) : string := string_of_list_ascii cs.

Definition code (a : ascii) : N := N_of_ascii a.

(** [str.isspace] on one character, which is also what [\s] matches in a
    [re] pattern over [str]. *)
Definition isspace (a : ascii) : bool :=
  let c := code a in
  (((9 <=? c) && (c <=? 13)) || ((28 <=? c) && (c <=? 32))
   || (c =? 133) || (c =? 160))%N.

Definition isdigit (a : ascii) : bool :=
  let c := code a in ((48 <=? c) && (c <=? 57))%N.

Definition lower_char (a : ascii) : ascii :=
  let c := code a in
  if (((65 <=? c) && (c <=? 90))
      || ((192 <=? c) && (c <=? 222) && negb (c =? 215)))%N
  then ascii_of_N (c + 32) else a.

(** [s.lower()] *)
Definition lower (s : string) : string := text (map lower_char (chars s)).

Fixpoint lstrip_chars (cs : list ascii) : list ascii :=
  match cs with
  | c :: cs' => if isspace c then lstrip_chars cs' else cs
  | [] => []
  end.

Definition strip_chars (cs : list ascii) : list ascii :=
  rev (lstrip_chars (rev (lstrip_chars cs))).

(** [s.strip()] *)
Definition strip (s : string) : string := text (strip_chars (chars s)).

(** [s.replace(a, b)] for one-character [a] and [b]. *)
Definition replace_char (a b : ascii) (s : string) : string :=
  text (map (fun c => if Ascii.eqb c a then b else c) (chars s)).

(** [sep.join(parts)] *)
Fixpoint join (sep : string) (parts : list string) : string :=
  match parts with
  | [] => ""
  | [p] => p
  | p :: ps => p ++ sep ++ join sep ps
  end.

(** [s.split(sep)] for a one-character separator: the pieces between the
    occurrences of [sep], empty pieces included. *)
Fixpoint split_chars (sep : ascii) (cs : list ascii) : list (list ascii) :=
  match cs with
  | [] => [[]]
  | c :: cs' =>
      match split_chars sep cs' with
      | piece :: pieces =>
          if Ascii.eqb c sep then [] :: piece :: pieces
          else (c :: piece) :: pieces
      | [] => [[c]]
      end
  end.

Definition split (sep : ascii) (s : string) : list string :=
  map text (split_chars sep (chars s)).

(** [s.endswith(suffix)] *)
Definition endswith (s suffix : string) : bool :=
  let n := String.length s in
  let k := String.length suffix in
  (k <=? n)%nat && String.eqb (substring (n - k) k s) suffix.

(** ** Python values

    A cell of a data frame, as Python sees it when a row is read: an [int], a
    [float] (binary64, [nan] for a missing cell) or a [str]. *)
Inductive value :=
  | VInt (z : Z)
  | VFloat (f : float)
  | VStr (s : string).

(** The nearest binary64 to an integer, ties to even. *)
Definition float_of_Z (z : Z) : float :=
  SF2Prim (binary_normalize prec emax z 0 false).

(** The nearest binary64 to [m * 10^e]: for a negative [e] the quotient is
    taken with more than 64 bits and one sticky bit, which rounds as the
    exact quotient does. *)
Definition float_of_decimal (neg : bool) (m e : Z) : float :=
  let sgn (z : Z) := if neg then Z.opp z else z in
  if m =? 0 then (if neg then (-0)%float else 0%float)
  else if 0 <=? e then
    SF2Prim (binary_normalize prec emax (sgn (m * 10 ^ e)) 0 false)
  else
    let d := 10 ^ (- e) in
    let s := Z.log2 d + 66 in
    let q := (m * 2 ^ s) / d in
    let sticky := if (m * 2 ^ s) mod d =? 0 then 0 else 1 in
    SF2Prim (binary_normalize prec emax (sgn (2 * q + sticky)) (- s - 1) false).

Definition digit_val (a : ascii) : Z := Z.of_N (code a) - 48.

(** The value of a run of digits, continuing from [acc]. *)
Definition digits_val (acc : Z) (ds : list ascii) : Z :=
  fold_left (fun n d => 10 * n + digit_val d) ds acc.

(** Underscores of a numeric literal: each one stands between two digits.
    Returns the literal without them. *)
Fixpoint drop_underscores (prev : option ascii) (cs : list ascii)
  : option (list ascii) :=
  match cs with
  | [] =>
      match prev with
      | Some "_"%char => None
      | _ => Some []
      end
  | "_"%char :: cs' =>
      match prev with
      | Some p =>
          if isdigit p then drop_underscores (Some "_"%char) cs' else None
      | None => None
      end
  | c :: cs' =>
      match prev with
      | Some "_"%char =>
          if isdigit c then option_map (cons c) (drop_underscores (Some c) cs')
          else None
      | _ => option_map (cons c) (drop_underscores (Some c) cs')
      end
  end.

(** The longest prefix of digits, and the rest. *)
Fixpoint span_digits (cs : list ascii) : list ascii * list ascii :=
  match cs with
  | c :: cs' =>
      if isdigit c then
        let '(ds, rest) := span_digits cs' in (c :: ds, rest)
      else ([], cs)
  | [] => ([], [])
  end.

(** An optional sign: whether it is a minus, and the rest. *)
Definition take_sign (cs : list ascii) : bool * list ascii :=
  match cs with
  | "-"%char :: cs' => (true, cs')
  | "+"%char :: cs' => (false, cs')
  | _ => (false, cs)
  end.

(** The whitespace that [int] and [float] skip around a numeral.  The
    conversion turns the whitespace beyond ASCII into spaces and then skips
    the whitespace of C: tab to carriage return, and the space.  The
    separators U+001C to U+001F, which [str.isspace] accepts, are not
    skipped, and a numeral next to one is no numeral. *)
Definition numeral_space (a : ascii) : bool :=
  let c := code a in
  (((9 <=? c) && (c <=? 13)) || (c =? 32) || (c =? 133) || (c =? 160))%N.

Fixpoint lstrip_numeral (cs : list ascii) : list ascii :=
  match cs with
  | c :: cs' => if numeral_space c then lstrip_numeral cs' else cs
  | [] => []
  end.

Definition strip_numeral (cs : list ascii) : list ascii :=
  rev (lstrip_numeral (rev (lstrip_numeral cs))).

(** [int(s)] for a string: surrounding whitespace, a sign, digits. *)
Definition int_of_str (s : string) : option Z :=
  match drop_underscores None (strip_numeral (chars s)) with
  | None => None
  | Some cs =>
      let '(neg, body) := take_sign cs in
      match span_digits body with
      | (d :: ds, []) =>
          let n := digits_val 0 (d :: ds) in
          Some (if neg then - n else n)
      | _ => None
      end
  end.

(** The exponent part of a float literal: nothing, or [e], a sign, digits. *)
Definition exponent_of (cs : list ascii) : option Z :=
  match cs with
  | [] => Some 0
  | c :: cs' =>
      if Ascii.eqb (lower_char c) "e"%char then
        let '(neg, body) := take_sign cs' in
        match span_digits body with
        | (d :: ds, []) =>
            let n := digits_val 0 (d :: ds) in
            Some (if neg then - n else n)
        | _ => None
        end
      else None
  end.

(** [float(s)] for a string: surrounding whitespace, a sign, then [inf],
    [infinity], [nan] in any case, or a decimal literal with an optional
    fraction and exponent. *)
Definition float_of_str (s : string) : option float :=
  match drop_underscores None (strip_numeral (chars s)) with
  | None => None
  | Some cs =>
      let '(neg, body) := take_sign cs in
      let word := text (map lower_char body) in
      if String.eqb word "inf" || String.eqb word "infinity" then
        Some (if neg then neg_infinity else infinity)
      else if String.eqb word "nan" then Some nan
      else
        let '(ip, rest) := span_digits body in
        let '(fp, rest') :=
          match rest with
          | "."%char :: r => span_digits r
          | _ => ([], rest)
          end in
        match ip, fp with
        | [], [] => None
        | _, _ =>
            match exponent_of rest' with
            | Some e =>
                Some (float_of_decimal neg (digits_val (digits_val 0 ip) fp)
                        (e - Z.of_nat (length fp)))
            | None => None
            end
        end
  end.

(** [float(v)] *)
Definition py_float (v : value) : result float :=
  match v with
  | VInt z =>
      let f := float_of_Z z in
      if PrimFloat.is_infinity f
      then Raise (Exc OverflowError "int too large to convert to float")
      else Ok f
  | VFloat f => Ok f
  | VStr s =>
      match float_of_str s with
      | Some f => Ok f
      | None =>
          Raise (Exc ValueError
                   ("could not convert string to float: '" ++ s ++ "'"))
      end
  end.

(** The integer part of a finite float, rounded towards zero. *)
Definition trunc_float (f : float) : Z :=
  match Prim2SF f with
  | S754_finite sg m e =>
      let a := if 0 <=? e then Z.pos m * 2 ^ e else Z.pos m / 2 ^ (- e) in
      if sg then - a else a
  | _ => 0
  end.

(** [int(v)] *)
Definition py_int (v : value) : result Z :=
  match v with
  | VInt z => Ok z
  | VFloat f =>
      if PrimFloat.is_nan f
      then Raise (Exc ValueError "cannot convert float NaN to integer")
      else if PrimFloat.is_infinity f
      then Raise (Exc OverflowError "cannot convert float infinity to integer")
      else Ok (trunc_float f)
  | VStr s =>
      match int_of_str s with
      | Some z => Ok z
      | None =>
          Raise (Exc ValueError
                   ("invalid literal for int() with base 10: '" ++ s ++ "'"))
      end
  end.

(** [str(f)] for a float.  The shortest decimal that reads back as [f] is
    worked out for [nan], the infinities and the whole numbers below
    [10^16] in size; every other float is [Unmodelled]. *)
Definition str_of_float (f : float) : result string :=
  if PrimFloat.is_nan f then Ok "nan"
  else if PrimFloat.is_infinity f then
    Ok (if PrimFloat.ltb f 0 then "-inf" else "inf")
  else
    let z := trunc_float f in
    if PrimFloat.eqb (float_of_Z z) f && (Z.abs z <? 10 ^ 16) then
      Ok ((if PrimFloat.get_sign f then "-" else "")
            ++ str_of_Z (Z.abs z) ++ ".0")
    else Unmodelled.

(** [str(v)] *)
Definition py_str (v : value) : result string :=
  match v with
  | VInt z => Ok (str_of_Z z)
  | VFloat f => str_of_float f
  | VStr s => Ok s
  end.

(** [pd.notna(v)] on a scalar. *)
Definition notna (v : value) : bool :=
  match v with
  | VFloat f => negb (PrimFloat.is_nan f)
  | _ => true
  end.

(** ** Data frames

    A frame is its column labels, in order and possibly repeated, and its
    rows, each a list of cells in the order of the labels.  The labels are
    strings, as [read_csv] gives them, and the cells are the values above. *)
Record DataFrame := mkDF {
  columns : list string;
  rows : list (list value)
}.

(** Every row has one cell per column. *)
Definition well_formed (df : DataFrame) : Prop :=
  Forall (fun r => length r = length (columns df)) (rows df).

(** A row read as a Series: its cells under the labels of the frame. *)
Abbreviation Series := (list (string * value)).

(** [df.iterrows()] and the rows [df.apply(f, axis=1)] passes to [f]. *)
Definition series_rows (df : DataFrame) : list Series :=
  map (zip (columns df)) (rows df).

(** [label in df.columns] *)
Definition has_column (df : DataFrame) (label : string) : bool :=
  bool_decide (label ∈ columns df).

(** The cells of a Series under one label, in order. *)
Definition select (label : string) (row : Series) : list value :=
  map snd (filter (fun kv => kv.1 = label) row).

(** What [row.get(label, default)] and [row[label]] evaluate to: one cell, or
    a Series of the cells when the label is repeated. *)
Inductive item :=
  | Scalar (v : value)
  | SubSeries (vs : list value).

(** [row.get(label, default)] *)
Definition get (row : Series) (label : string) (default : value) : item :=
  match select label row with
  | [] => Scalar default
  | [v] => Scalar v
  | vs => SubSeries vs
  end.

(** [row.to_dict()]: a later cell of a repeated label replaces an earlier
    one. *)
Definition to_dict (row : Series) : gmap string value :=
  fold_left (fun d kv => <[kv.1 := kv.2]> d) row ∅.

(** One row of [df[label] = ...]: every cell under [label] is overwritten,
    and a label the frame does not have gets a new last cell. *)
Definition put_cell (labels : list string) (label : string) (v : value)
    (r : list value) : list value :=
  if bool_decide (label ∈ labels)
  then zip_with (fun l x => if bool_decide (l = label) then v else x) labels r
  else r ++ [v].

(** The labels of a frame after [df[label] = ...]. *)
Definition labels_with (labels : list string) (label : string) : list string :=
  if bool_decide (label ∈ labels) then labels else labels ++ [label].

(** [df[label] = col] for a column given cell by cell. *)
Definition set_column (df : DataFrame) (label : string) (col : list value)
  : DataFrame :=
  mkDF (labels_with (columns df) label)
       (zip_with (fun r v => put_cell (columns df) label v r) (rows df) col).

(** [df[label] = v] for a scalar. *)
Definition set_scalar (df : DataFrame) (label : string) (v : value)
  : DataFrame :=
  set_column df label (replicate (length (rows df)) v).

(** ** The classifier ([utils/classifier.py], [classify_customers]) *)

Inductive CustomerCategory :=
  | BULK_BUYER
  | FREQUENT_CUSTOMER
  | BOTH
  | REGULAR.

(** [CustomerCategory.X.value] *)
Definition category_value (c : CustomerCategory) : string :=
  match c with
  | BULK_BUYER => "bulk_buyer"
  | FREQUENT_CUSTOMER => "frequent_customer"
  | BOTH => "both"
  | REGULAR => "regular"
  end.

(** The result of a comparison: a [bool], or a Series of them when the
    compared item was a Series. *)
Inductive pyobj :=
  | PBool (b : bool)
  | PSeries (bs : list bool).

(** [v >= k] for a cell and an integer constant. *)
Definition value_ge (v : value) (k : Z) : result bool :=
  match v with
  | VInt z => Ok (k <=? z)
  | VFloat f => Ok (PrimFloat.leb (float_of_Z k) f)
  | VStr _ =>
      Raise (Exc TypeError
               "'>=' not supported between instances of 'str' and 'int'")
  end.

Definition item_ge (i : item) (k : Z) : result pyobj :=
  match i with
  | Scalar v => b ← value_ge v k; Ok (PBool b)
  | SubSeries vs => bs ← mapM (fun v => value_ge v k) vs; Ok (PSeries bs)
  end.

(** [bool(x)], as [if], [and] and [or] call it.  A Series has no truth
    value: pandas raises a [ValueError], whose wording varies with the
    version of pandas; no property below depends on it. *)
Definition truth (x : pyobj) : result bool :=
  match x with
  | PBool b => Ok b
  | PSeries _ =>
      Raise (Exc ValueError
               "The truth value of a Series is ambiguous. Use a.empty, a.bool(), a.item(), a.any() or a.all().")
  end.

(** [x or y]: [y] is evaluated only when [x] is false. *)
Definition py_or (x : pyobj) (y : result pyobj) : result pyobj :=
  t ← truth x; if t : bool then Ok x else y.

(** [x and y] for an already evaluated [y]. *)
Definition py_and (x y : pyobj) : result pyobj :=
  t ← truth x; if t : bool then Ok y else Ok x.

Definition classify_row (row : Series) : result string :=
  quantity_high ← item_ge (get row "total_quantity" (VInt 0)) 50;
  is_bulk ← py_or quantity_high
                  (item_ge (get row "order_value" (VInt 0)) 5000);
  is_frequent ← item_ge (get row "purchase_count" (VInt 0)) 10;
  both ← py_and is_bulk is_frequent;
  c1 ← truth both;
  if c1 : bool then Ok (category_value BOTH)
  else
    c2 ← truth is_bulk;
    if c2 : bool then Ok (category_value BULK_BUYER)
    else
      c3 ← truth is_frequent;
      if c3 : bool then Ok (category_value FREQUENT_CUSTOMER)
      else Ok (category_value REGULAR).

(** The cells of a frame under one label, row by row. *)
Definition column (df : DataFrame) (label : string) : list value :=
  flat_map (select label) (series_rows df).

(** [df[target] = df.get(source, default)] when [target] is not a column:
    [df.get] is the column [source], the scalar [default] when there is
    none, and a frame when the label is repeated, which cannot be assigned
    to one new column. *)
Definition fill_from (df : DataFrame) (target source : string)
    (default : value) : result DataFrame :=
  if has_column df target then Ok df
  else
    match count_occ string_dec (columns df) source with
    | O => Ok (set_scalar df target default)
    | S O => Ok (set_column df target (column df source))
    | _ =>
        Raise (Exc ValueError
                 ("Cannot set a DataFrame with multiple columns to the single column "
                    ++ target))
    end.

(** [series.value_counts().to_dict()] *)
Definition value_counts (xs : list string) : gmap string nat :=
  foldr (fun x m => <[x := S (default O (m !! x))]> m) ∅ xs.

(** [df.apply(classify_row, axis=1)]: the function on every row.  On a
    frame without rows pandas calls the function once, on a row of missing
    cells, to see what it returns; when that call raises, [apply] returns a
    frame, which the assignment to one column refuses with an error of
    pandas's own wording: [Unmodelled]. *)
Definition apply_classify_row (df : DataFrame) : result (list string) :=
  match rows df with
  | [] =>
      match classify_row
              (zip (columns df)
                   (replicate (length (columns df)) (VFloat nan))) with
      | Ok _ => Ok []
      | _ => Unmodelled
      end
  | _ => mapM classify_row (series_rows df)
  end.

(** When the frame has the label [category] more than once, the assigned
    [df['category']] is a frame, whose [value_counts()] counts rows of
    cells and not categories: [Unmodelled]. *)
Definition classify_customers (df : DataFrame)
  : result (DataFrame * gmap string nat) :=
  df ← fill_from df "total_quantity" "quantity" (VInt 0);
  df ← fill_from df "purchase_count" "orders" (VInt 1);
  df ← fill_from df "order_value" "amount" (VInt 0);
  categories ← apply_classify_row df;
  match count_occ string_dec (columns df) "category" with
  | O | S O =>
      let df := set_column df "category" (map VStr categories) in
      Ok (df, value_counts categories)
  | _ => Unmodelled
  end.

(** ** The readers the parser calls

    [pd.read_csv], [pd.read_excel] and [pdfplumber.open] are libraries: what
    each returns on the bytes it is given is taken from a [Library].  A PDF
    page answers [extract_tables()] with tables of optional strings and
    [extract_text()] with a string or [None]; either call can raise.
    [pdfplumber] is [None] when the import at the top of the module failed.
    [upload_file] is the file service, which answers with the URL and the
    identifier of the stored file. *)
Definition bytes := list Byte.byte.

Definition table := list (list (option string)).

Record Page := {
  extract_tables : result (list table);
  extract_text : result (option string)
}.

Record Library := {
  read_csv : bytes -> result DataFrame;
  read_excel : bytes -> result DataFrame;
  pdfplumber : option (bytes -> result (list Page));
  upload_file : string -> bytes -> result (string * string)
}.

(** ** The PDF reader ([_parse_pdf_file]) *)

(** [pd.DataFrame(data, columns=header)] for lists of cells: the rows are
    padded with [None] to the longest of them, and that length has to be the
    number of labels. *)
Definition frame_of_lists {A} (cell : option A -> value)
    (header : list string) (data : list (list (option A)))
  : result DataFrame :=
  let width := foldr (fun r w => Nat.max (length r) w) O data in
  if bool_decide (width = length header) then
    Ok (mkDF header
          (map (fun r => map cell (r ++ replicate (width - length r) None))
               data))
  else
    Raise (Exc ValueError
             (str_of_Z (Z.of_nat (length header)) ++ " columns passed, passed data had "
                ++ str_of_Z (Z.of_nat width) ++ " columns")).

(** A cell of an extracted table after [df.fillna('')]. *)
Definition filled (c : option string) : value :=
  match c with
  | Some s => VStr s
  | None => VStr ""
  end.

(** The header of an extracted table, when every label is a string. *)
Definition labels_of (header : list (option string)) : option (list string) :=
  mapM id header.

(** One table of a page: kept when it has a header and at least one data
    row.  A header with a [None] label is [Unmodelled]. *)
Definition table_frame (t : table) : result (option DataFrame) :=
  match t with
  | header :: row :: more =>
      match labels_of header with
      | Some labels =>
          df ← frame_of_lists filled labels (row :: more); Ok (Some df)
      | None => Unmodelled
      end
  | _ => Ok None
  end.

(** [pd.concat(frames, ignore_index=True)] for frames that carry the same
    labels; frames with different labels are [Unmodelled]. *)
Definition pd_concat (frames : list DataFrame) : result DataFrame :=
  match frames with
  | [] => Raise (Exc ValueError "No objects to concatenate")
  | df :: rest =>
      if forallb (fun d => bool_decide (columns d = columns df)) rest
      then Ok (mkDF (columns df) (flat_map rows frames))
      else Unmodelled
  end.

(** The first strategy: every table of every page, concatenated. *)
Definition extract_from_tables (pages : list Page) : result DataFrame :=
  per_page ← mapM (fun page =>
                tables ← extract_tables page;
                mapM table_frame tables) pages;
  let all_tables := omap id (List.concat per_page) in
  match all_tables with
  | [] => Raise (Exc ValueError "No tables found in PDF")
  | _ => pd_concat all_tables
  end.

(** [re.split(r'\s{2,}|\t', line)]: a run of two or more whitespace
    characters is one separator, and so is a tab that stands alone.
    [in_run] holds while the rest of a separating run is being skipped. *)
Fixpoint re_split (in_run : bool) (cs : list ascii) : list (list ascii) :=
  let push c pieces :=
    match pieces with
    | p :: ps => (c :: p) :: ps
    | [] => [[c]]
    end in
  match cs with
  | [] => [[]]
  | c :: cs' =>
      if isspace c then
        if in_run then re_split true cs'
        else
          match cs' with
          | d :: _ =>
              if isspace d then [] :: re_split true cs'
              else if Ascii.eqb c "009"%char then [] :: re_split false cs'
              else push c (re_split false cs')
          | [] =>
              if Ascii.eqb c "009"%char then [] :: re_split false cs'
              else push c (re_split false cs')
          end
      else push c (re_split false cs')
  end.

Definition tokens (line : string) : list string :=
  map text (re_split false (chars line)).

(** [[line.strip() for line in text.split('\n') if line.strip()]] *)
Definition nonempty_lines (t : string) : list string :=
  filter (fun l => l ≠ "") (map strip (split "010"%char t)).

(** The lines after the first that have as many tokens as the header. *)
Definition data_rows (header : list string) (lines : list string)
  : list (list string) :=
  filter (fun row => length row = length header) (map tokens lines).

(** [page.extract_text() + '\n'] *)
Definition page_text (page : Page) : result string :=
  t ← extract_text page;
  match t with
  | Some s => Ok (s ++ "
")
  | None =>
      Raise (Exc TypeError
               "unsupported operand type(s) for +: 'NoneType' and 'str'")
  end.

(** The second strategy: the text of the pages, line by line. *)
Definition extract_from_text (pages : list Page) : result DataFrame :=
  texts ← mapM page_text pages;
  match nonempty_lines (String.concat "" texts) with
  | first :: second :: more =>
      let header := tokens first in
      match data_rows header (second :: more) with
      | [] => Raise (Exc ValueError "Could not parse PDF data")
      | row :: rows =>
          frame_of_lists filled header (map (map Some) (row :: rows))
      end
  | _ => Raise (Exc ValueError "PDF does not contain enough data")
  end.

(** [try: ... except Exception as e: ...] *)
Definition try_except {A} (body : result A) (handler : exn -> result A)
  : result A :=
  match body with
  | Raise e => handler e
  | r => r
  end.

(** The handler of the first strategy: the second one, whose exceptions
    are raised again as one [ValueError]. *)
Definition fallback (pages : result (list Page)) : result DataFrame :=
  try_except
    (pages ← pages; extract_from_text pages)
    (fun parse_error =>
       Raise (Exc ValueError
                ("Failed to extract data from PDF: "
                   ++ str_exn parse_error
                   ++ ". Please ensure the PDF contains a table with customer data."))).

Definition _parse_pdf_file (lib : Library) (file_content : bytes)
  : result DataFrame :=
  match pdfplumber lib with
  | None => Raise (Exc ValueError "pdfplumber library not installed")
  | Some open =>
      try_except
        (pages ← open file_content; extract_from_tables pages)
        (fun _ => fallback (open file_content))
  end.

(** ** Normalisation of the parsed frame ([parse_csv_file], after the
    reader has returned) *)

(** [df.columns.str.lower().str.strip().str.replace(' ', '_')] on one
    label. *)
Definition standardize (label : string) : string :=
  replace_char " "%char "_"%char (strip (lower label)).

Definition column_mapping : gmap string string :=
  list_to_map
    [("customer_name", "name"); ("customer", "name"); ("full_name", "name");
     ("phone_number", "phone"); ("mobile", "phone"); ("contact", "phone");
     ("email_address", "email");
     ("quantity", "total_quantity"); ("qty", "total_quantity");
     ("orders", "purchase_count"); ("order_count", "purchase_count");
     ("amount", "order_value"); ("total_amount", "order_value");
     ("value", "order_value")].

(** [df.rename(columns=column_mapping)] on one label. *)
Definition rename (label : string) : string :=
  default label (column_mapping !! label).

Definition required_cols : list string := ["name"; "phone"].

(** The labels of a frame after the header transform and the renaming. *)
Definition canonical_labels (df : DataFrame) : list string :=
  map rename (map standardize (columns df)).

(** What [df[label]] is: a column, or a frame when the label is repeated. *)
Inductive selection :=
  | OneColumn (cells : list value)
  | SubFrame (labels : nat).

Definition getitem (df : DataFrame) (label : string) : result selection :=
  match count_occ string_dec (columns df) label with
  | O => Raise (Exc KeyError label)
  | S O => Ok (OneColumn (column df label))
  | n => Ok (SubFrame n)
  end.

(** The characters [[\s\-\(\)]] matches. *)
Definition phone_junk (c : ascii) : bool :=
  isspace c || Ascii.eqb c "-"%char || Ascii.eqb c "("%char
  || Ascii.eqb c ")"%char.

(** [re.sub(r'[\s\-\(\)]', '', s)] *)
Definition clean_phone (s : string) : string :=
  text (filter (fun c => phone_junk c = false) (chars s)).

(** [astype(str)] on one cell: [str] of the cell.  A missing cell is where
    the versions of pandas part, the string [nan] in one and a missing cell
    still in the other, and the source names no version: it is
    [Unmodelled]. *)
Definition astype_str (v : value) : result string :=
  if notna v then py_str v else Unmodelled.

(** [df['phone'] = df['phone'].astype(str).str.replace(...)]: a frame has
    no [.str]. *)
Definition clean_phones (df : DataFrame) : result DataFrame :=
  phones ← getitem df "phone";
  match phones with
  | OneColumn cells =>
      strs ← mapM astype_str cells;
      Ok (set_column df "phone" (map (fun s => VStr (clean_phone s)) strs))
  | SubFrame _ =>
      Raise (Exc AttributeError "'DataFrame' object has no attribute 'str'")
  end.

(** [if label not in df.columns: df[label] = v] *)
Definition fill_missing (label : string) (v : value) (df : DataFrame)
  : DataFrame :=
  if has_column df label then df else set_scalar df label v.

Definition missing_message (missing_cols available : list string) : string :=
  "Missing required columns: " ++ join ", " missing_cols
    ++ ". Available columns: " ++ join ", " available.

Definition normalize (df : DataFrame) : result DataFrame :=
  let df := mkDF (map standardize (columns df)) (rows df) in
  let df := mkDF (map rename (columns df)) (rows df) in
  let missing_cols :=
    filter (fun col => col ∉ columns df) required_cols in
  match missing_cols with
  | _ :: _ =>
      Raise (Exc ValueError (missing_message missing_cols (columns df)))
  | [] =>
      df ← (if has_column df "phone" then clean_phones df else Ok df);
      let df := fill_missing "email" (VStr "") df in
      let df := fill_missing "total_quantity" (VInt 0) df in
      let df := fill_missing "purchase_count" (VInt 1) df in
      let df := fill_missing "order_value" (VInt 0) df in
      Ok df
  end.

Definition parse_csv_file (lib : Library) (file_content : bytes)
    (filename : string) : result DataFrame :=
  let filename_lower := lower filename in
  df ← (if endswith filename_lower ".csv" then read_csv lib file_content
        else if endswith filename_lower ".xlsx"
                || endswith filename_lower ".xls"
        then read_excel lib file_content
        else if endswith filename_lower ".pdf" then
          match pdfplumber lib with
          | None =>
              Raise (Exc ValueError
                       "PDF support not available. Please install pdfplumber.")
          | Some _ => _parse_pdf_file lib file_content
          end
        else
          Raise (Exc ValueError
                   "Unsupported file format. Please upload CSV, Excel (.xlsx, .xls) or PDF file."));
  normalize df.

(** ** The customer service ([services/customer_service.py]) *)

Record CustomerDoc := {
  id : string;
  user_id : string;
  name : string;
  phone : string;
  email : string;
  category : value;
  total_quantity : float;
  purchase_count : Z;
  order_value : float;
  uploaded_at : string;
  source_file : string;
  file_url : option string;
  file_id : option string;
  custom_fields : option (gmap string value)
}.

(** The [customers] collection of the database, in insertion order. *)
Record Database := { customers : list CustomerDoc }.

(** What one request draws from outside: the [n]-th [uuid.uuid4()] and the
    [n]-th [datetime.now(timezone.utc).isoformat()] of the request, and the
    order in which the process iterates a set of strings, which follows its
    hash seed. *)
Record Effects := {
  uuid4 : nat -> string;
  utc_now : nat -> string;
  set_order : list string -> list string
}.

Definition canonical_fields : list string :=
  ["name"; "phone"; "email"; "category"; "total_quantity"; "purchase_count";
   "order_value"].

(** An optional argument as [if arg:] reads it: [None] and [''] are
    false. *)
Definition truthy (arg : option string) : option string :=
  match arg with
  | Some s => if bool_decide (s = "") then None else Some s
  | None => None
  end.

(** The document of the [n]-th row. *)
Definition customer_doc (fx : Effects) (filename user : string)
    (url fid : option string) (n : nat) (row : Series) : result CustomerDoc :=
  let customer_data := to_dict row in
  nm ← py_str (default (VStr "") (customer_data !! "name"));
  ph ← py_str (default (VStr "") (customer_data !! "phone"));
  em ← py_str (default (VStr "") (customer_data !! "email"));
  tq ← py_float (default (VInt 0) (customer_data !! "total_quantity"));
  pc ← py_int (default (VInt 1) (customer_data !! "purchase_count"));
  ov ← py_float (default (VInt 0) (customer_data !! "order_value"));
  let additional_fields :=
    filter (fun kv => (kv.1 ∉ canonical_fields) ∧ (notna kv.2 = true))
           customer_data in
  Ok {| id := uuid4 fx n;
        user_id := user;
        name := strip nm;
        phone := strip ph;
        email := strip em;
        category := default (VStr "regular") (customer_data !! "category");
        total_quantity := tq;
        purchase_count := pc;
        order_value := ov;
        uploaded_at := utc_now fx n;
        source_file := filename;
        file_url := truthy url;
        file_id := truthy fid;
        custom_fields :=
          if bool_decide (additional_fields = ∅) then None
          else Some additional_fields |}.

(** [for _, row in df.iterrows(): customers.append(customer_doc)] *)
Fixpoint build_docs (fx : Effects) (filename user : string)
    (url fid : option string) (n : nat) (rs : list Series)
  : result (list CustomerDoc) :=
  match rs with
  | [] => Ok []
  | row :: rs' =>
      doc ← customer_doc fx filename user url fid n row;
      docs ← build_docs fx filename user url fid (S n) rs';
      Ok (doc :: docs)
  end.

Record UploadResult := {
  total_customers : nat;
  classifications : gmap string nat;
  customers_response : list CustomerDoc
}.

(** [insert_many] appends the documents; with no document it is not
    called. *)
Definition insert_many (db : Database) (docs : list CustomerDoc) : Database :=
  {| customers := customers db ++ docs |}.

Definition upload_customers (lib : Library) (fx : Effects) (db : Database)
    (file_content : bytes) (filename user : string)
    (url fid : option string) : result (UploadResult * Database) :=
  df ← parse_csv_file lib file_content filename;
  classified ← classify_customers df;
  let '(df, counts) := classified in
  docs ← build_docs fx filename user url fid O (series_rows df);
  Ok ({| total_customers := length docs;
         classifications := counts;
         customers_response := docs |},
      insert_many db docs).

(** [sort("uploaded_at", -1)]: latest first.  Documents with the same
    [uploaded_at] keep their order. *)
Fixpoint insert_desc (d : CustomerDoc) (ds : list CustomerDoc)
  : list CustomerDoc :=
  match ds with
  | [] => [d]
  | x :: ds' =>
      if String.leb (uploaded_at x) (uploaded_at d)
      then d :: ds
      else x :: insert_desc d ds'
  end.

Definition sort_desc (ds : list CustomerDoc) : list CustomerDoc :=
  foldr insert_desc [] ds.

Definition owned_by (user : string) (db : Database) : list CustomerDoc :=
  filter (fun d => user_id d = user) (customers db).

(** [find({"user_id": user}).sort("uploaded_at", -1).to_list(1000)], and
    the [customers] and [total] of the answer. *)
Definition list_customers (db : Database) (user : string)
  : list CustomerDoc * nat :=
  let found := take 1000 (sort_desc (owned_by user db)) in
  (found, length found).

(** [delete_many({"user_id": user})] and its [deleted_count]. *)
Definition clear_customers (db : Database) (user : string)
  : nat * Database :=
  (length (owned_by user db),
   {| customers := filter (fun d => user_id d ≠ user) (customers db) |}).

(** ** The upload route ([routes/customers.py]) *)

(** [filename.rsplit('.', 1)[-1]]: what follows the last dot, or the whole
    name when it has none. *)
Definition after_last_dot (filename : string) : string :=
  default filename (last (split "."%char filename)).

(** The set of the allowed extensions, listed as the source lists
    them. *)
Definition allowed_extensions : list string := [".csv"; ".xlsx"; ".xls"; ".pdf"].

(** The two handlers of the route: a [ValueError] is answered with 400, any
    other exception, an [HTTPException] raised in the body included, with
    500. *)
Definition route_handlers {A} (body : result A) : result A :=
  try_except body (fun e =>
    if is_ValueError e then Raise (HTTPExc 400 (str_exn e))
    else Raise (HTTPExc 500 ("Failed to process file: " ++ str_exn e))).

(** [POST /customers/upload], for the user the token names. *)
Definition upload_route (lib : Library) (fx : Effects) (db : Database)
    (filename : string) (content : bytes) (user : string)
  : result (UploadResult * Database) :=
  route_handlers
    (let file_ext := "." ++ lower (after_last_dot filename) in
     if bool_decide (file_ext ∈ allowed_extensions) then
       if bool_decide (length content = O) then
         Raise (HTTPExc 400 "File is empty")
       else
         file_metadata ← upload_file lib filename content;
         let '(url, fid) := file_metadata in
         upload_customers lib fx db content filename user
                          (Some url) (Some fid)
     else
       Raise (HTTPExc 400
                ("Unsupported file format. Allowed: "
                   ++ join ", " (set_order fx allowed_extensions)))).

(** ** The message template ([utils/classifier.py], [prepare_message]) *)

(** [s.startswith(p)] on characters. *)
Fixpoint starts_with (p s : list ascii) : bool :=
  match p, s with
  | [], _ => true
  | a :: p', b :: s' => Ascii.eqb a b && starts_with p' s'
  | _ :: _, [] => false
  end.

(** [s.replace(old, new)] for a non-empty [old]: the occurrences of [old]
    are replaced from the left and do not overlap.  [skip] counts the
    characters of a replaced occurrence that are still to be dropped. *)
Fixpoint replace_chars (old new : list ascii) (skip : nat) (s : list ascii)
  : list ascii :=
  match s with
  | [] => []
  | c :: s' =>
      match skip with
      | S k => replace_chars old new k s'
      | O =>
          if starts_with old s
          then new ++ replace_chars old new (length old - 1) s'
          else c :: replace_chars old new O s'
      end
  end.

(** [s.replace(old, new)]; with an empty [old], [new] goes before every
    character and after the last. *)
Definition str_replace (old new s : string) : string :=
  match chars old with
  | [] => text (chars new ++ flat_map (fun c => c :: chars new) (chars s))
  | _ => text (replace_chars (chars old) (chars new) O (chars s))
  end.

(** The placeholder of a key, [{{key}}]. *)
Definition placeholder (key : string) : string := "{{" ++ key ++ "}}".

(** The dictionary is read in the order of its items. *)
Fixpoint prepare_message (template : string)
    (customer_data : list (string * value)) : result string :=
  match customer_data with
  | [] => Ok template
  | (key, v) :: items =>
      s ← py_str v;
      prepare_message (str_replace (placeholder key) s template) items
  end.

(** ** The classification rule as the specification words it

    [isBulk = (total_quantity >= 50) OR (order_value >= 5000)],
    [isFrequent = (purchase_count >= 10)], and the category by precedence:
    both, only bulk, only frequent, neither. *)
Inductive number :=
  | NInt (z : Z)
  | NFloat (f : float).

Definition number_value (n : number) : value :=
  match n with
  | NInt z => VInt z
  | NFloat f => VFloat f
  end.

(** [n >= k]; a [nan] is not above any bound. *)
Definition number_ge (n : number) (k : Z) : bool :=
  match n with
  | NInt z => k <=? z
  | NFloat f => PrimFloat.leb (float_of_Z k) f
  end.

Definition isBulk (total_quantity order_value : number) : bool :=
  number_ge total_quantity 50 || number_ge order_value 5000.

Definition isFrequent (purchase_count : number) : bool :=
  number_ge purchase_count 10.

Definition category_of (total_quantity purchase_count order_value : number)
  : CustomerCategory :=
  match isBulk total_quantity order_value, isFrequent purchase_count with
  | true, true => BOTH
  | true, false => BULK_BUYER
  | false, true => FREQUENT_CUSTOMER
  | false, false => REGULAR
  end.

(** The rows of a frame that carry the category [c]. *)
Definition has_category (c : string) (row : Series) : bool :=
  match to_dict row !! "category" with
  | Some (VStr s) => String.eqb s c
  | _ => false
  end.

(** The four columns that are added when the sheet does not have them. *)
Definition fill_defaults (df : DataFrame) : DataFrame :=
  fill_missing "order_value" (VInt 0)
    (fill_missing "purchase_count" (VInt 1)
       (fill_missing "total_quantity" (VInt 0)
          (fill_missing "email" (VStr "") df))).

(** Two frames hold the same cells under the label [l], row by row. *)
Definition same_cells (l : string) (df df' : DataFrame) : Prop :=
  Forall2 (fun r r' => select l (zip (columns df) r)
                       = select l (zip (columns df') r'))
          (rows df) (rows df').

(** Every row of the frame holds the one cell [v] under the label [l]. *)
Definition constant_column (l : string) (v : value) (df : DataFrame) : Prop :=
  Forall (fun r => select l (zip (columns df) r) = [v]) (rows df).

(** The characters the specification has removed from a phone value:
    whitespace, hyphens and parentheses. *)
Definition removed (c : ascii) : Prop :=
  isspace c = true \/ c = "-"%char \/ c = "("%char \/ c = ")"%char.

Global Instance removed_dec (c : ascii) : Decision (removed c).
Proof. unfold removed; apply _. Defined.

(** The cell a document is built from: the last one of the row under the
    label, or the default of the builder. *)
Definition cell (row : Series) (l : string) (d : value) : value :=
  default d (last (select l row)).

(** What a document takes from a row: the texts are [str] of the cell,
    stripped; the quantity and the value are [float] of the cell and the
    count is [int] of it. *)
Definition built_from (row : Series) (doc : CustomerDoc) : Prop :=
  (exists nm, py_str (cell row "name" (VStr "")) = Ok nm /\ name doc = strip nm)
  /\ (exists ph, py_str (cell row "phone" (VStr "")) = Ok ph
                 /\ phone doc = strip ph)
  /\ (exists em, py_str (cell row "email" (VStr "")) = Ok em
                 /\ email doc = strip em)
  /\ py_float (cell row "total_quantity" (VInt 0)) = Ok (total_quantity doc)
  /\ py_int (cell row "purchase_count" (VInt 1)) = Ok (purchase_count doc)
  /\ py_float (cell row "order_value" (VInt 0)) = Ok (order_value doc).

(** The order of a listing: no document is uploaded before its
    successor. *)
Definition latest_first (a b : CustomerDoc) : Prop :=
  String.leb (uploaded_at b) (uploaded_at a) = true.

(** No phone cell of the sheet is missing. *)
Definition no_phone_missing (raw : DataFrame) : Prop :=
  Forall (fun r => Forall (fun v => notna v = true)
                          (select "phone" (zip (canonical_labels raw) r)))
         (rows raw).


(** The cell is a string. *)
Definition is_str (v : value) : Prop :=
  match v with
  | VStr _ => True
  | _ => False
  end.

(** No two whitespace characters stand side by side. *)
Fixpoint single_spaced (cs : list ascii) : Prop :=
  match cs with
  | a :: (b :: _) as rest =>
      ~ (isspace a = true /\ isspace b = true) /\ single_spaced rest
  | _ => True
  end.

(** [old] stands somewhere in [s]. *)
Definition occurs (old s : string) : Prop :=
  exists pre post : list ascii, chars s = (pre ++ chars old ++ post)%list.

(** ** Example inputs *)

(** One customer below every threshold. *)
Definition one_regular : DataFrame :=
  mkDF ["name"; "phone"; "email"; "total_quantity"; "purchase_count";
        "order_value"]
       [[VStr "Ann"; VStr "5551234567"; VStr ""; VInt 5; VInt 2; VInt 100]].

(** A sheet with a punctuated phone number, and its normal form. *)
Definition punctuated_phone : DataFrame :=
  mkDF ["Name"; "Phone"] [[VStr "Ann"; VStr "(555) 123-4567"]].

Definition punctuated_phone_normalized : DataFrame :=
  mkDF ["name"; "phone"; "email"; "total_quantity"; "purchase_count";
        "order_value"]
       [[VStr "Ann"; VStr "5551234567"; VStr ""; VInt 0; VInt 1; VInt 0]].



(** A page of text with a header of three tokens, a line of three tokens
    and a line of two, and no table on it. *)
Definition three_and_two : Page :=
  {| extract_tables := Ok [];
     extract_text := Ok (Some "name  phone  email
Ann  5551234567  ann@example.org
Bob  5550000000") |}.

(** A page whose table extraction raises, with two lines of text. *)
Definition broken_tables : Page :=
  {| extract_tables := Raise (Exc OtherError "unreadable page stream");
     extract_text := Ok (Some "name  phone
Ann  5551234567") |}.

(** A library that opens every PDF as the given pages. *)
Definition pdf_library (pages : list Page) : Library :=
  {| read_csv := fun _ => Unmodelled;
     read_excel := fun _ => Unmodelled;
     pdfplumber := Some (fun _ => Ok pages);
     upload_file := fun _ _ => Unmodelled |}.

(** One stored customer of the user [u1]. *)
Definition stored_customer (n : nat) : CustomerDoc :=
  {| id := "c" ++ str_of_Z (Z.of_nat n);
     user_id := "u1";
     name := "Ann";
     phone := "5551234567";
     email := "";
     category := VStr "regular";
     total_quantity := 5;
     purchase_count := 2;
     order_value := 100;
     uploaded_at := "2024-05-01T10:00:00+00:00";
     source_file := "customers.csv";
     file_url := None;
     file_id := None;
     custom_fields := None |}.

(** A collection that holds 1001 customers of one user. *)
Definition crowded : Database :=
  {| customers := map stored_customer (seq 0 1001) |}.

(** A library whose CSV reader returns the given frame and whose file
    service stores the file. *)
Definition csv_library (df : DataFrame) : Library :=
  {| read_csv := fun _ => Ok df;
     read_excel := fun _ => Unmodelled;
     pdfplumber := None;
     upload_file := fun _ _ =>
       Ok ("https://files.example/u1/customers.csv", "file-1") |}.

Definition clock : Effects :=
  {| uuid4 := fun n => "id-" ++ str_of_Z (Z.of_nat n);
     utc_now := fun _ => "2024-05-01T10:00:00+00:00";
     set_order := fun extensions => extensions |}.

Definition no_customers : Database := {| customers := [] |}.

(** Sheets with a text where a number is expected: in the quantity, in the
    number of orders, and in the amount of a customer with a high
    quantity. *)
Definition text_quantity : DataFrame :=
  mkDF ["name"; "phone"; "total_quantity"]
       [[VStr "Ann"; VInt 5551234567; VStr "abc"]].

Definition text_orders : DataFrame :=
  mkDF ["name"; "phone"; "orders"]
       [[VStr "Ann"; VInt 5551234567; VStr "many"]].

Definition text_amount : DataFrame :=
  mkDF ["name"; "phone"; "quantity"; "amount"]
       [[VStr "Ann"; VInt 5551234567; VInt 60; VStr "abc"]].




Definition name_twice : DataFrame :=
  mkDF ["name"; "customer_name"; "phone"]
       [[VStr "Ann"; VStr "Ann Lee"; VInt 5551234567]].

Definition name_twice_normalized : DataFrame :=
  mkDF ["name"; "name"; "phone"; "email"; "total_quantity"; "purchase_count";
        "order_value"]
       [[VStr "Ann"; VStr "Ann Lee"; VStr "5551234567"; VStr ""; VInt 0;
         VInt 1; VInt 0]].

(** The document and the answer of the upload of [punctuated_phone] by the
    user [u1] as [customers.csv]. *)
Definition ann_doc : CustomerDoc :=
  {| id := "id-0";
     user_id := "u1";
     name := "Ann";
     phone := "5551234567";
     email := "";
     category := VStr "regular";
     total_quantity := 0;
     purchase_count := 1;
     order_value := 0;
     uploaded_at := "2024-05-01T10:00:00+00:00";
     source_file := "customers.csv";
     file_url := None;
     file_id := None;
     custom_fields := None |}.

Definition ann_uploaded : UploadResult :=
  {| total_customers := 1;
     classifications := value_counts ["regular"];
     customers_response := [ann_doc] |}.

(** A classified row with a column of the sheet's own, [city], and a
    missing cell under another, [notes]; and its document. *)
Definition ann_of_paris_row : Series :=
  [("name", VStr "Ann"); ("phone", VStr "5551234567"); ("email", VStr "");
   ("city", VStr "Paris"); ("notes", VFloat nan);
   ("total_quantity", VInt 0); ("purchase_count", VInt 1);
   ("order_value", VInt 0); ("category", VStr "regular")].

Definition ann_of_paris : CustomerDoc :=
  {| id := "id-0";
     user_id := "u1";
     name := "Ann";
     phone := "5551234567";
     email := "";
     category := VStr "regular";
     total_quantity := 0;
     purchase_count := 1;
     order_value := 0;
     uploaded_at := "2024-05-01T10:00:00+00:00";
     source_file := "customers.csv";
     file_url := None;
     file_id := None;
     custom_fields := Some {["city" := VStr "Paris"]} |}.

Definition one_regular_classified : DataFrame :=
  mkDF ["name"; "phone"; "email"; "total_quantity"; "purchase_count";
        "order_value"; "category"]
       [[VStr "Ann"; VStr "5551234567"; VStr ""; VInt 5; VInt 2; VInt 100;
         VStr "regular"]].

(** * Properties *)

Local Open Scope list_scope.

(** A string is in a list that shows it. *)
Ltac present :=
  repeat first [apply list_elem_of_here | apply list_elem_of_further].

(** A string is not in a list of other strings. *)
Ltac absent :=
  let H := fresh "H" in
  intros H;
  repeat (apply elem_of_cons in H as [H|H]; [discriminate H|]);
  inversion H.

(** ** The result monad *)

Lemma bind_Ok {A B} (r : result A) (k : A -> result B) (b : B) :
  r ≫= k = Ok b -> exists a, r = Ok a /\ k a = Ok b.
Proof. destruct r as [a| |]; simpl; intros H; try discriminate; eauto. Qed.

Lemma mapM_Ok_length {A B} (f : A -> result B) (xs : list A) (ys : list B) :
  mapM f xs = Ok ys -> length ys = length xs.
Proof.
  revert ys; induction xs as [|x xs IH]; simpl; intros ys H.
  - injection H as <-; reflexivity.
  - apply bind_Ok in H as (y & _ & H).
    apply bind_Ok in H as (ys' & Hys & H).
    injection H as <-; simpl; f_equal; auto.
Qed.

Lemma mapM_Ok_Forall2 {A B} (f : A -> result B) (xs : list A) (ys : list B) :
  mapM f xs = Ok ys -> Forall2 (fun x y => f x = Ok y) xs ys.
Proof.
  revert ys; induction xs as [|x xs IH]; simpl; intros ys H.
  - injection H as <-; constructor.
  - apply bind_Ok in H as (y & Hy & H).
    apply bind_Ok in H as (ys' & Hys & H).
    injection H as <-; constructor; auto.
Qed.

Lemma mapM_all_Ok {A B} (f : A -> result B) (g : A -> B) (xs : list A) :
  Forall (fun x => f x = Ok (g x)) xs -> mapM f xs = Ok (map g xs).
Proof.
  induction 1 as [|x xs Hx _ IH]; simpl; [reflexivity|].
  rewrite Hx; simpl; rewrite IH; reflexivity.
Qed.

(** ** Rows and cells *)

Lemma select_cons (l k : string) (v : value) (row : Series) :
  select l ((k, v) :: row)
  = if decide (k = l) then v :: select l row else select l row.
Proof.
  unfold select; rewrite filter_cons; simpl.
  destruct (decide (k = l)); reflexivity.
Qed.

Lemma select_app (l : string) (row1 row2 : Series) :
  select l (row1 ++ row2) = select l row1 ++ select l row2.
Proof. unfold select; rewrite filter_app, map_app; reflexivity. Qed.

Lemma select_absent (l : string) (labels : list string) (r : list value) :
  l ∉ labels -> select l (zip labels r) = [].
Proof.
  revert r; induction labels as [|k labels IH]; intros r Hl; [reflexivity|].
  destruct r as [|v r]; [reflexivity|]; simpl.
  rewrite select_cons.
  apply not_elem_of_cons in Hl as [Hk Hl].
  destruct (decide (k = l)); [congruence|auto].
Qed.

(** A dictionary built from a row answers with the last cell under the
    label. *)
Lemma to_dict_from (row : Series) (d : gmap string value) (l : string) :
  fold_left (fun d kv => <[kv.1 := kv.2]> d) row d !! l
  = match last (select l row) with
    | Some v => Some v
    | None => d !! l
    end.
Proof.
  revert d; induction row as [|[k v] row IH]; intros d; [reflexivity|].
  simpl fold_left; rewrite IH, select_cons; simpl.
  destruct (decide (k = l)) as [->|Hk].
  - destruct (select l row) as [|w ws] eqn:E; simpl.
    + apply lookup_insert_eq.
    + rewrite last_cons. destruct (last ws); reflexivity.
  - destruct (last (select l row)); [reflexivity|].
    apply lookup_insert_ne; assumption.
Qed.

Lemma to_dict_last (row : Series) (l : string) :
  to_dict row !! l = last (select l row).
Proof.
  unfold to_dict; rewrite to_dict_from.
  destruct (last (select l row)); [reflexivity|apply lookup_empty].
Qed.

Lemma length_put_cell (labels : list string) (l : string) (v : value)
    (r : list value) :
  length r = length labels ->
  length (put_cell labels l v r) = length (labels_with labels l).
Proof.
  intros H; unfold put_cell, labels_with; case_bool_decide.
  - rewrite length_zip_with; lia.
  - rewrite !length_app; simpl; lia.
Qed.

Lemma select_overwrite_other (labels : list string) (l l' : string)
    (v : value) (r : list value) :
  l' ≠ l ->
  select l' (zip labels
               (zip_with (fun k x => if bool_decide (k = l) then v else x)
                         labels r))
  = select l' (zip labels r).
Proof.
  intros Hne; revert r; induction labels as [|k labels IH]; intros r;
    [reflexivity|].
  destruct r as [|x r]; [reflexivity|]; simpl.
  rewrite !select_cons, IH.
  destruct (decide (k = l')) as [->|]; [|reflexivity].
  rewrite bool_decide_eq_false_2 by assumption; reflexivity.
Qed.

Lemma select_overwrite_same (labels : list string) (l : string)
    (v : value) (r : list value) :
  select l (zip labels
              (zip_with (fun k x => if bool_decide (k = l) then v else x)
                        labels r))
  = replicate (length (select l (zip labels r))) v.
Proof.
  revert r; induction labels as [|k labels IH]; intros r; [reflexivity|].
  destruct r as [|x r]; [reflexivity|]; simpl.
  rewrite !select_cons, IH.
  destruct (decide (k = l)) as [->|]; [|reflexivity].
  rewrite bool_decide_eq_true_2 by reflexivity; reflexivity.
Qed.

Lemma select_present (labels : list string) (l : string) (r : list value) :
  length r = length labels -> l ∈ labels -> select l (zip labels r) ≠ [].
Proof.
  revert r; induction labels as [|k labels IH]; intros r Hlen Hin.
  - inversion Hin.
  - destruct r as [|x r]; [discriminate|]; simpl.
    rewrite select_cons.
    destruct (decide (k = l)); [discriminate|].
    apply elem_of_cons in Hin as [->|Hin]; [congruence|].
    apply IH; [simpl in Hlen; lia|assumption].
Qed.

Lemma zip_app_same {A B} (l1 l2 : list A) (k1 k2 : list B) :
  length l1 = length k1 -> zip (l1 ++ l2) (k1 ++ k2) = zip l1 k1 ++ zip l2 k2.
Proof.
  revert k1; induction l1 as [|a l1 IH]; intros [|b k1] H; try discriminate;
    [reflexivity|].
  simpl; f_equal; apply IH; simpl in H; lia.
Qed.

Lemma last_replicate_S {A} (n : nat) (v : A) :
  last (replicate (S n) v) = Some v.
Proof.
  induction n as [|n IHn]; [reflexivity|].
  change (replicate (S (S n)) v) with (v :: replicate (S n) v).
  rewrite last_cons, IHn; reflexivity.
Qed.

(** After [df[l] = v] the row answers [v] under [l], whatever it held. *)
Lemma to_dict_put_same (labels : list string) (l : string) (v : value)
    (r : list value) :
  length r = length labels ->
  to_dict (zip (labels_with labels l) (put_cell labels l v r)) !! l = Some v.
Proof.
  intros Hlen; rewrite to_dict_last; unfold labels_with, put_cell.
  case_bool_decide as Hin.
  - rewrite select_overwrite_same.
    pose proof (select_present labels l r Hlen Hin) as Hne.
    destruct (select l (zip labels r)) as [|w ws]; [congruence|].
    simpl length. apply last_replicate_S.
  - rewrite zip_app_same by (symmetry; assumption).
    rewrite select_app, select_absent by assumption; simpl.
    rewrite select_cons; destruct (decide (l = l)); [reflexivity|congruence].
Qed.

Lemma select_put_other (labels : list string) (l l' : string) (v : value)
    (r : list value) :
  l' ≠ l -> length r = length labels ->
  select l' (zip (labels_with labels l) (put_cell labels l v r))
  = select l' (zip labels r).
Proof.
  intros Hne Hlen; unfold labels_with, put_cell. case_bool_decide.
  - apply select_overwrite_other; assumption.
  - rewrite zip_app_same by (symmetry; assumption).
    rewrite select_app; simpl. rewrite select_cons.
    destruct (decide (l = l')); [congruence|]. apply app_nil_r.
Qed.

Lemma select_put_new (labels : list string) (l : string) (v : value)
    (r : list value) :
  l ∉ labels -> length r = length labels ->
  select l (zip (labels_with labels l) (put_cell labels l v r)) = [v].
Proof.
  intros Hl Hlen; unfold labels_with, put_cell.
  rewrite bool_decide_eq_false_2 by assumption.
  rewrite zip_app_same by (symmetry; assumption).
  rewrite select_app, select_absent by assumption; simpl.
  rewrite select_cons; destruct (decide (l = l)); [reflexivity|congruence].
Qed.

(** ** Frames *)

Lemma well_formed_set_column (df : DataFrame) (l : string) (col : list value) :
  well_formed df -> well_formed (set_column df l col).
Proof.
  unfold well_formed, set_column; simpl.
  generalize (columns df) as labels; intros labels H; revert col.
  induction H as [|r rs Hr _ IH]; intros [|v col]; simpl; constructor.
  - apply length_put_cell; assumption.
  - apply IH.
Qed.

Lemma well_formed_set_scalar (df : DataFrame) (l : string) (v : value) :
  well_formed df -> well_formed (set_scalar df l v).
Proof. apply well_formed_set_column. Qed.

(** What every row answers under [l] after [df[l] = col]. *)
Lemma to_dict_set_column (df : DataFrame) (l : string) (col : list value) :
  well_formed df -> length col = length (rows df) ->
  map (fun row => to_dict row !! l) (series_rows (set_column df l col))
  = map Some col.
Proof.
  unfold well_formed, series_rows, set_column; simpl.
  generalize (columns df) as labels; intros labels H; revert col.
  induction H as [|r rs Hr _ IH]; intros [|v col] Hlen; try discriminate;
    [reflexivity|].
  simpl; f_equal; [apply to_dict_put_same; assumption|].
  apply IH; simpl in Hlen; lia.
Qed.

Lemma well_formed_fill_from (df df' : DataFrame) (target source : string)
    (v : value) :
  well_formed df -> fill_from df target source v = Ok df' -> well_formed df'.
Proof.
  unfold fill_from; intros Hwf H.
  destruct (has_column df target); [congruence|].
  destruct (count_occ _ _ _) as [|[|n]]; try discriminate;
    injection H as <-;
    [apply well_formed_set_scalar|apply well_formed_set_column]; assumption.
Qed.

(** ** The classifier *)

Lemma item_ge_number (n : number) (k : Z) :
  item_ge (Scalar (number_value n)) k = Ok (PBool (number_ge n k)).
Proof. destruct n; reflexivity. Qed.

Lemma value_counts_lookup (xs : list string) (c : string) :
  value_counts xs !! c
  = match count_occ string_dec xs c with
    | O => None
    | n => Some n
    end.
Proof.
  induction xs as [|x xs IH]; [apply lookup_empty|].
  change (value_counts (x :: xs))
    with (<[x := S (default O (value_counts xs !! x))]> (value_counts xs)).
  simpl count_occ. destruct (string_dec x c) as [->|Hne].
  - rewrite lookup_insert_eq, IH.
    destruct (count_occ string_dec xs c); reflexivity.
  - rewrite lookup_insert_ne by assumption. apply IH.
Qed.

Lemma count_has_category (c : string) (rs : list Series) (cats : list string) :
  map (fun row => to_dict row !! "category") rs = map Some (map VStr cats) ->
  length (List.filter (has_category c) rs) = count_occ string_dec cats c.
Proof.
  revert cats; induction rs as [|row rs IH]; intros [|s cats] H;
    try discriminate; [reflexivity|].
  simpl in H; injection H as Hrow Hrs.
  simpl; unfold has_category at 1; rewrite Hrow.
  destruct (string_dec s c) as [->|Hne].
  - rewrite String.eqb_refl; simpl; f_equal; auto.
  - apply String.eqb_neq in Hne; rewrite Hne; auto.
Qed.

(** C1.  For a row whose [total_quantity], [purchase_count] and
    [order_value] are numbers, [classify_row] returns the category that the
    rule of the specification assigns to the three numbers, and nothing else
    of the row matters: both conditions give [both], only the bulk condition
    [bulk_buyer], only the frequency condition [frequent_customer], neither
    [regular]. *)
Theorem classify_row_follows_rule (row : Series) (tq pc ov : number) :
  get row "total_quantity" (VInt 0) = Scalar (number_value tq) ->
  get row "purchase_count" (VInt 0) = Scalar (number_value pc) ->
  get row "order_value" (VInt 0) = Scalar (number_value ov) ->
  classify_row row = Ok (category_value (category_of tq pc ov)).
Proof.
  intros Htq Hpc Hov; unfold classify_row.
  rewrite Htq, Hpc, Hov, !item_ge_number; simpl.
  unfold category_of, isBulk, isFrequent.
  destruct (number_ge tq 50), (number_ge ov 5000), (number_ge pc 10);
    reflexivity.
Qed.

Lemma classify_row_follows_rule_witness :
  classify_row [("name", VStr "Ann"); ("total_quantity", VInt 60);
                ("purchase_count", VInt 12); ("order_value", VInt 0)]
  = Ok "both".
Proof.
  apply (classify_row_follows_rule _ (NInt 60) (NInt 12) (NInt 0));
    reflexivity.
Defined.

Lemma apply_classify_row_Ok (df : DataFrame) (cats : list string) :
  apply_classify_row df = Ok cats ->
  mapM classify_row (series_rows df) = Ok cats.
Proof.
  unfold apply_classify_row, series_rows.
  destruct (rows df) as [|r rs]; [|trivial].
  destruct (classify_row _); intros H; try discriminate.
  injection H as <-. reflexivity.
Qed.


(** What a successful end of [classify_customers] returns. *)
Lemma classify_end_Ok (df df' : DataFrame) (cats : list string)
    (counts : gmap string nat) :
  match count_occ string_dec (columns df) "category" with
  | O | S O =>
      Ok (set_column df "category" (map VStr cats), value_counts cats)
  | _ => Unmodelled
  end = Ok (df', counts) ->
  df' = set_column df "category" (map VStr cats)
  /\ counts = value_counts cats.
Proof.
  destruct (count_occ string_dec (columns df) "category") as [|[|n]];
    intros H; try discriminate; injection H as <- <-; split; reflexivity.
Qed.

(** The counts of [classify_customers] give every category its number of
    occurrences among the assigned categories, and no entry to a category
    that was not assigned. *)
Lemma classify_customers_Ok (df df' : DataFrame) (counts : gmap string nat) :
  well_formed df -> classify_customers df = Ok (df', counts) ->
  exists cats,
    map (fun row => to_dict row !! "category") (series_rows df')
    = map Some (map VStr cats)
    /\ counts = value_counts cats.
Proof.
  unfold classify_customers; intros Hwf H.
  apply bind_Ok in H as (df1 & H1 & H).
  apply bind_Ok in H as (df2 & H2 & H).
  apply bind_Ok in H as (df3 & H3 & H).
  apply bind_Ok in H as (cats & Hcats & H).
  apply apply_classify_row_Ok in Hcats.
  apply classify_end_Ok in H as [-> ->].
  exists cats; split; [|reflexivity].
  apply to_dict_set_column.
  - eauto using well_formed_fill_from.
  - rewrite length_map. apply mapM_Ok_length in Hcats.
    rewrite Hcats. unfold series_rows. apply length_map.
Qed.

(** C2, as the code has it.  The mapping returned by [classify_customers]
    has an entry exactly for the categories that occur in some row, with the
    number of rows that carry them; a category that occurs in no row has no
    entry. *)
Theorem classifications_count_rows (df df' : DataFrame)
    (counts : gmap string nat) :
  well_formed df -> classify_customers df = Ok (df', counts) ->
  forall c : string,
    counts !! c
    = match length (List.filter (has_category c) (series_rows df')) with
      | O => None
      | n => Some n
      end.
Proof.
  intros Hwf H c.
  destruct (classify_customers_Ok df df' counts Hwf H) as (cats & Hrows & ->).
  rewrite (count_has_category c _ cats Hrows). apply value_counts_lookup.
Qed.

Lemma classifications_count_rows_witness :
  value_counts ["regular"] !! "regular"
  = match length (List.filter (has_category "regular")
                    (series_rows one_regular_classified)) with
    | O => None
    | n => Some n
    end.
Proof.
  apply (classifications_count_rows one_regular one_regular_classified
           (value_counts ["regular"])).
  - repeat constructor.
  - vm_compute; reflexivity.
Defined.

(** C2 as stated fails: the frame of one regular customer is classified
    with a mapping that has no entry for the three other categories. *)
Lemma classifications_omit_absent :
  exists df' counts,
    classify_customers one_regular = Ok (df', counts)
    /\ counts !! "regular" = Some 1%nat
    /\ counts !! "both" = None
    /\ counts !! "bulk_buyer" = None
    /\ counts !! "frequent_customer" = None.
Proof.
  exists one_regular_classified, (value_counts ["regular"]).
  repeat split; vm_compute; reflexivity.
Qed.

(** ** The normaliser *)

(** [normalize] in one piece: the check of the required columns on the
    renamed labels, the cleaning of the phones, the four fills. *)
Lemma normalize_unfold (raw : DataFrame) :
  normalize raw
  = let df := mkDF (canonical_labels raw) (rows raw) in
    match filter (fun col => col ∉ columns df) required_cols with
    | _ :: _ =>
        Raise (Exc ValueError
                 (missing_message
                    (filter (fun col => col ∉ columns df) required_cols)
                    (columns df)))
    | [] =>
        df ← (if has_column df "phone" then clean_phones df else Ok df);
        Ok (fill_missing "order_value" (VInt 0)
              (fill_missing "purchase_count" (VInt 1)
                 (fill_missing "total_quantity" (VInt 0)
                    (fill_missing "email" (VStr "") df))))
    end.
Proof. reflexivity. Qed.

Lemma required_present (labels : list string) :
  filter (fun col => col ∉ labels) required_cols = []
  <-> "name" ∈ labels /\ "phone" ∈ labels.
Proof.
  unfold required_cols. rewrite !filter_cons, filter_nil.
  destruct (decide ("name" ∉ labels)) as [Hn|Hn],
           (decide ("phone" ∉ labels)) as [Hp|Hp];
    split; try discriminate; try (intros [? ?]; contradiction);
    intros _; split; apply dec_stable; assumption.
Qed.

(** C4.  When [name] or [phone] is not among the labels that the header
    transform and the synonym mapping produce, normalisation raises the
    [ValueError] "Missing required columns", whose message lists the required
    labels that are missing and then every label that was found. *)
Theorem missing_required_columns (raw : DataFrame) :
  "name" ∉ canonical_labels raw \/ "phone" ∉ canonical_labels raw ->
  normalize raw
  = Raise (Exc ValueError
             ("Missing required columns: "
                ++ join ", " (filter (fun col => col ∉ canonical_labels raw)
                                     ["name"; "phone"])
                ++ ". Available columns: "
                ++ join ", " (canonical_labels raw))%string).
Proof.
  intros H. rewrite normalize_unfold. cbv zeta. simpl columns.
  destruct (filter _ required_cols) eqn:E; [|rewrite <- E; reflexivity].
  apply required_present in E as [Hn Hp]. destruct H; contradiction.
Qed.

Lemma missing_required_columns_witness :
  normalize (mkDF ["email"; "amount"] [[VStr "ann@example.org"; VInt 10]])
  = Raise (Exc ValueError
             "Missing required columns: name, phone. Available columns: email, order_value").
Proof.
  apply (missing_required_columns
           (mkDF ["email"; "amount"] [[VStr "ann@example.org"; VInt 10]])).
  left. vm_compute. intros H.
  repeat (apply elem_of_cons in H as [H|H]; [discriminate H|]).
  inversion H.
Defined.

Lemma length_select (labels : list string) (l : string) (r : list value) :
  length r = length labels ->
  length (select l (zip labels r)) = count_occ string_dec labels l.
Proof.
  revert r; induction labels as [|k labels IH]; intros [|x r] H;
    try discriminate; [reflexivity|].
  simpl zip; rewrite select_cons; simpl count_occ.
  destruct (string_dec k l), (decide (k = l)); try contradiction;
    simpl; rewrite IH by (simpl in H; lia); reflexivity.
Qed.

Lemma count_occ_elem_of (labels : list string) (l : string) :
  l ∈ labels <-> (0 < count_occ string_dec labels l)%nat.
Proof.
  rewrite list_elem_of_In. apply count_occ_In.
Qed.

(** The column under a label that occurs once has the cell of each row. *)
Lemma column_unique (df : DataFrame) (l : string) :
  well_formed df -> count_occ string_dec (columns df) l = 1%nat ->
  Forall2 (fun r v => select l (zip (columns df) r) = [v])
          (rows df) (column df l).
Proof.
  unfold well_formed, column, series_rows.
  generalize (columns df) as labels; intros labels Hwf Hone.
  induction Hwf as [|r rs Hr _ IH]; [constructor|].
  simpl. pose proof (length_select labels l r Hr) as Hlen.
  rewrite Hone in Hlen.
  destruct (select l (zip labels r)) as [|v [|w ws]] eqn:E; try discriminate.
  simpl. constructor; [exact E|exact IH].
Qed.

Lemma zip_with_replicate {A B C} (f : A -> B -> C) (xs : list A) (b : B) :
  zip_with f xs (replicate (length xs) b) = map (fun x => f x b) xs.
Proof. induction xs as [|x xs IH]; simpl; [|rewrite IH]; reflexivity. Qed.

Lemma columns_fill_missing (l : string) (v : value) (df : DataFrame) :
  columns (fill_missing l v df) = labels_with (columns df) l.
Proof.
  unfold fill_missing, has_column. case_bool_decide as H; [|reflexivity].
  unfold labels_with. rewrite bool_decide_eq_true_2 by assumption.
  reflexivity.
Qed.

Lemma rows_fill_missing (l : string) (v : value) (df : DataFrame) :
  rows (fill_missing l v df)
  = map (fun r => if bool_decide (l ∈ columns df) then r
                  else put_cell (columns df) l v r) (rows df).
Proof.
  unfold fill_missing, has_column. case_bool_decide.
  - symmetry; apply map_id.
  - unfold set_scalar, set_column; simpl. apply zip_with_replicate.
Qed.

Lemma well_formed_fill_missing (l : string) (v : value) (df : DataFrame) :
  well_formed df -> well_formed (fill_missing l v df).
Proof.
  unfold fill_missing; destruct (has_column df l);
    [trivial|apply well_formed_set_scalar].
Qed.

Lemma same_cells_refl (l : string) (df : DataFrame) : same_cells l df df.
Proof.
  unfold same_cells. apply Forall_Forall2_diag, Forall_forall. reflexivity.
Qed.

Lemma same_cells_trans (l : string) (df1 df2 df3 : DataFrame) :
  same_cells l df1 df2 -> same_cells l df2 df3 -> same_cells l df1 df3.
Proof.
  unfold same_cells; intros H12 H23.
  eapply Forall2_trans; [| exact H12 | exact H23].
  simpl; intros; congruence.
Qed.

Lemma same_cells_fill_missing (l l' : string) (v : value) (df : DataFrame) :
  well_formed df -> l' ≠ l -> same_cells l' df (fill_missing l v df).
Proof.
  unfold same_cells, well_formed; intros Hwf Hne.
  rewrite rows_fill_missing, columns_fill_missing.
  induction Hwf as [|r rs Hr _ IH]; simpl; constructor; [|exact IH].
  unfold labels_with. case_bool_decide as Hin; [reflexivity|].
  symmetry. pose proof (select_put_other (columns df) l l' v r Hne Hr) as E.
  unfold labels_with in E. rewrite bool_decide_eq_false_2 in E by assumption.
  exact E.
Qed.

Lemma constant_column_fill_missing (l : string) (v : value) (df : DataFrame) :
  well_formed df -> l ∉ columns df -> constant_column l v (fill_missing l v df).
Proof.
  unfold constant_column, well_formed; intros Hwf Hl.
  rewrite rows_fill_missing, columns_fill_missing.
  induction Hwf as [|r rs Hr _ IH]; simpl; constructor; [|exact IH].
  rewrite bool_decide_eq_false_2 by assumption.
  apply select_put_new; assumption.
Qed.

Lemma constant_column_same_cells (l : string) (v : value)
    (df df' : DataFrame) :
  constant_column l v df -> same_cells l df df' -> constant_column l v df'.
Proof.
  unfold constant_column, same_cells; intros Hc Hs.
  induction Hs as [|r r' rs rs' E _ IH]; [constructor|].
  inversion Hc; subst. constructor; [congruence|auto].
Qed.


Lemma clean_phones_Ok (df df' : DataFrame) :
  well_formed df -> clean_phones df = Ok df' ->
  columns df' = columns df
  /\ well_formed df'
  /\ count_occ string_dec (columns df) "phone" = 1%nat
  /\ Forall2 (fun r r' =>
                exists v s,
                  select "phone" (zip (columns df) r) = [v]
                  /\ astype_str v = Ok s
                  /\ r' = put_cell (columns df) "phone"
                                   (VStr (clean_phone s)) r)
             (rows df) (rows df').
Proof.
  unfold clean_phones, getitem; intros Hwf H.
  destruct (count_occ string_dec (columns df) "phone") as [|[|n]] eqn:Hone;
    simpl in H; try discriminate.
  apply bind_Ok in H as (strs & Hstrs & H). injection H as <-.
  assert (Hin : "phone" ∈ columns df)
    by (apply count_occ_elem_of; rewrite Hone; lia).
  repeat split.
  - simpl. unfold labels_with.
    rewrite bool_decide_eq_true_2 by assumption; reflexivity.
  - apply well_formed_set_column; assumption.
  - simpl rows.
    pose proof (column_unique df "phone" Hwf Hone) as Hcol.
    apply mapM_Ok_Forall2 in Hstrs.
    assert (Hrs : Forall2 (fun r s => exists v,
                             select "phone" (zip (columns df) r) = [v]
                             /\ astype_str v = Ok s) (rows df) strs).
    { eapply Forall2_trans; [| exact Hcol | exact Hstrs].
      simpl; intros r v s Hr Hs; eauto. }
    clear Hcol Hstrs. induction Hrs as [|r s rs ss (v & Hv & Hs) _ IH];
      simpl; constructor; eauto.
Qed.

Lemma well_formed_canonical (raw : DataFrame) :
  well_formed raw -> well_formed (mkDF (canonical_labels raw) (rows raw)).
Proof.
  unfold well_formed, canonical_labels; simpl.
  rewrite !length_map; trivial.
Qed.

Lemma normalize_Ok (raw df : DataFrame) :
  normalize raw = Ok df ->
  "name" ∈ canonical_labels raw
  /\ "phone" ∈ canonical_labels raw
  /\ exists df1,
       clean_phones (mkDF (canonical_labels raw) (rows raw)) = Ok df1
       /\ df = fill_defaults df1.
Proof.
  rewrite normalize_unfold; cbv zeta; simpl columns; intros H.
  destruct (filter _ required_cols) eqn:E; [|discriminate].
  apply required_present in E as [Hn Hp]. split; [|split]; trivial.
  unfold has_column in H; simpl columns in H.
  rewrite bool_decide_eq_true_2 in H by assumption.
  apply bind_Ok in H as (df1 & H1 & H). injection H as <-. eauto.
Qed.

Lemma well_formed_fill_defaults (df : DataFrame) :
  well_formed df -> well_formed (fill_defaults df).
Proof. intros H; unfold fill_defaults; auto using well_formed_fill_missing. Qed.

Lemma same_cells_fill_defaults (l : string) (df : DataFrame) :
  well_formed df ->
  l ∉ ["email"; "total_quantity"; "purchase_count"; "order_value"] ->
  same_cells l df (fill_defaults df).
Proof.
  intros Hwf Hl. unfold fill_defaults.
  repeat (eapply same_cells_trans;
          [|apply same_cells_fill_missing;
            [auto using well_formed_fill_missing
            |intros ->; apply Hl; present]]).
  apply same_cells_refl.
Qed.

Lemma clean_phone_removed (s : string) :
  clean_phone s = text (filter (fun c => ~ removed c) (chars s)).
Proof.
  unfold clean_phone; f_equal. apply list_filter_iff; intros c.
  unfold removed, phone_junk.
  rewrite !orb_false_iff, !Ascii.eqb_neq.
  destruct (isspace c); intuition congruence.
Qed.




(** ** The PDF reader *)

Lemma filter_map_commute {A B} (f : A -> B) (P : B -> Prop)
    `{!forall b, Decision (P b)} (xs : list A) :
  filter P (map f xs) = map f (filter (fun x => P (f x)) xs).
Proof.
  induction xs as [|x xs IH]; [reflexivity|].
  simpl map. rewrite !filter_cons, IH.
  destruct (decide (P (f x))); reflexivity.
Qed.

Lemma width_exact {A} (n : nat) (data : list (list A)) :
  data ≠ [] -> Forall (fun r => length r = n) data ->
  foldr (fun r w => Nat.max (length r) w) O data = n.
Proof.
  intros Hne H. induction H as [|r rs Hr Hrs IH]; [congruence|].
  simpl. destruct rs as [|r' rs'].
  - simpl. lia.
  - rewrite IH by discriminate. lia.
Qed.

(** Rows that are as long as the header make a frame as they are. *)
Lemma frame_of_lists_exact (header : list string) (data : list (list string)) :
  data ≠ [] -> Forall (fun r => length r = length header) data ->
  frame_of_lists filled header (map (map Some) data)
  = Ok (mkDF header (map (map VStr) data)).
Proof.
  intros Hne H. unfold frame_of_lists.
  assert (W : foldr (fun r w => Nat.max (length r) w) O (map (map Some) data)
              = length header).
  { apply width_exact.
    - destruct data; [congruence|discriminate].
    - clear Hne. induction H; simpl; constructor; auto.
      rewrite length_map; assumption. }
  rewrite W, bool_decide_eq_true_2 by reflexivity.
  do 2 f_equal. clear Hne W.
  induction H as [|r rs Hr _ IH]; [reflexivity|].
  simpl. rewrite IH. f_equal.
  rewrite length_map, Hr, Nat.sub_diag. simpl. rewrite app_nil_r.
  rewrite map_map. reflexivity.
Qed.

(** C6.  In the pass over the text of the pages, with the first of the
    trimmed non-empty lines split into a header of [n] tokens, the data rows
    are the later lines that split into [n] tokens, in their order, and no
    other line; when no line does, the pass raises. *)
Theorem text_rows_match_header (pages : list Page) (texts : list string)
    (first : string) (rest : list string) :
  mapM page_text pages = Ok texts ->
  nonempty_lines (String.concat "" texts) = first :: rest ->
  let kept :=
    filter (fun line => length (tokens line) = length (tokens first)) rest in
  (kept ≠ [] ->
   extract_from_text pages
   = Ok (mkDF (tokens first)
              (map (fun line => map VStr (tokens line)) kept)))
  /\ (kept = [] ->
      exists msg, extract_from_text pages = Raise (Exc ValueError msg)).
Proof.
  intros Htexts Hlines kept. unfold extract_from_text.
  rewrite Htexts. simpl. rewrite Hlines.
  assert (Hdata : data_rows (tokens first) rest = map tokens kept)
    by apply (filter_map_commute tokens).
  destruct rest as [|l rest'].
  { split; [intros Hk; contradiction Hk; reflexivity|eauto]. }
  rewrite Hdata. split.
  - intros Hk. destruct (map tokens kept) as [|d ds] eqn:E.
    { destruct kept; [congruence|discriminate]. }
    change (map Some d :: map (map Some) ds)
      with (map (map Some) (d :: ds)).
    rewrite <- E, frame_of_lists_exact.
    + rewrite map_map. reflexivity.
    + rewrite E; discriminate.
    + apply Forall_forall. intros row Hrow.
      apply list_elem_of_In, in_map_iff in Hrow as (line & <- & Hline).
      apply list_elem_of_In, list_elem_of_filter in Hline as [Hlen _].
      exact Hlen.
  - intros ->. simpl. eauto.
Qed.

Lemma text_rows_match_header_witness :
  extract_from_text [three_and_two]
  = Ok (mkDF ["name"; "phone"; "email"]
             [[VStr "Ann"; VStr "5551234567"; VStr "ann@example.org"]]).
Proof.
  refine (proj1 (text_rows_match_header [three_and_two]
                   ["name  phone  email
Ann  5551234567  ann@example.org
Bob  5550000000
"]
                   "name  phone  email"
                   ["Ann  5551234567  ann@example.org"; "Bob  5550000000"]
                   _ _) _).
  - reflexivity.
  - vm_compute; reflexivity.
  - vm_compute; discriminate.
Defined.

(** The text pass is what [_parse_pdf_file] answers with when no page has a
    table. *)
Example text_pass_after_no_table :
  _parse_pdf_file (pdf_library [three_and_two]) []
  = Ok (mkDF ["name"; "phone"; "email"]
             [[VStr "Ann"; VStr "5551234567"; VStr "ann@example.org"]]).
Proof. vm_compute; reflexivity. Qed.

(** C7, as the code has it.  The handler that runs the text pass catches
    every exception of the table pass: the text pass is entered when the
    table pass finds no table and also when it fails in any other way, and
    it is not entered when the table pass returns a frame. *)
Theorem fallback_on_any_exception (lib : Library)
    (open : bytes -> result (list Page)) (content : bytes) :
  pdfplumber lib = Some open ->
  (forall df,
     (pages ← open content; extract_from_tables pages) = Ok df ->
     _parse_pdf_file lib content = Ok df)
  /\ (forall e,
        (pages ← open content; extract_from_tables pages) = Raise e ->
        _parse_pdf_file lib content = fallback (open content)).
Proof.
  intros Hopen; unfold _parse_pdf_file; rewrite Hopen.
  split; intros x Hx; rewrite Hx; reflexivity.
Qed.

Lemma fallback_on_any_exception_witness :
  _parse_pdf_file (pdf_library [broken_tables]) []
  = fallback (Ok [broken_tables]).
Proof.
  refine (proj2 (fallback_on_any_exception (pdf_library [broken_tables])
                   (fun _ => Ok [broken_tables]) [] _)
                (Exc OtherError "unreadable page stream") _);
    reflexivity.
Defined.

(** A pass over pages without a table raises "No tables found in PDF". *)
Lemma no_tables_found (pages : list Page) :
  Forall (fun page => extract_tables page = Ok []) pages ->
  extract_from_tables pages = Raise (Exc ValueError "No tables found in PDF").
Proof.
  intros H. unfold extract_from_tables.
  assert (E : mapM (fun page => tables ← extract_tables page;
                                mapM table_frame tables) pages
              = Ok (map (fun _ => []) pages)).
  { apply mapM_all_Ok. eapply Forall_impl; [exact H|].
    simpl; intros page ->; reflexivity. }
  rewrite E. simpl.
  assert (N : List.concat (map (fun _ : Page => @nil (option DataFrame)) pages) = []).
  { clear. induction pages; simpl; auto. }
  rewrite N. reflexivity.
Qed.

(** C7 as stated fails: the table extraction of the page raises, which is
    not an empty set of tables, and the parser answers with the frame of
    the text pass. *)
Lemma fallback_after_extraction_error :
  (pages ← Ok [broken_tables]; extract_from_tables pages)
  = Raise (Exc OtherError "unreadable page stream")
  /\ _parse_pdf_file (pdf_library [broken_tables]) []
     = Ok (mkDF ["name"; "phone"] [[VStr "Ann"; VStr "5551234567"]])
  /\ extract_from_text [broken_tables]
     = Ok (mkDF ["name"; "phone"] [[VStr "Ann"; VStr "5551234567"]]).
Proof. repeat split; vm_compute; reflexivity. Qed.

(** ** The upload route *)

(** An upload without content is answered before the file service and the
    parser are called, whatever they would have done: the [HTTPException]
    with status 400 that the route raises is caught by its own last handler
    and raised again with status 500. *)
Lemma empty_upload (lib : Library) (fx : Effects) (db : Database)
    (filename user : string) :
  ("." ++ lower (after_last_dot filename))%string ∈ allowed_extensions ->
  upload_route lib fx db filename [] user
  = Raise (HTTPExc 500 "Failed to process file: 400: File is empty").
Proof.
  intros H. unfold upload_route.
  rewrite bool_decide_eq_true_2 by assumption. reflexivity.
Qed.

(** The sheet without the required columns is answered with status 400
    and the message of the normaliser. *)
Example missing_columns_answer :
  upload_route (csv_library (mkDF ["email"; "amount"]
                                  [[VStr "ann@example.org"; VInt 10]]))
               clock no_customers "customers.csv" [Byte.x6e] "u1"
  = Raise (HTTPExc 400
             "Missing required columns: name, phone. Available columns: email, order_value").
Proof. vm_compute; reflexivity. Qed.

(** The punctuated phone number is stored without its punctuation. *)
Example punctuated_phone_is_stored :
  exists res db,
    upload_route (csv_library punctuated_phone) clock no_customers
                 "customers.csv" [Byte.x4e] "u1" = Ok (res, db)
    /\ map phone (customers db) = ["5551234567"]
    /\ map phone (customers_response res) = ["5551234567"].
Proof. eexists _, _. repeat split; vm_compute; reflexivity. Qed.

(** C8, at the upload of the specification.  The empty file [x.csv] is
    answered with status 500 and the detail "Failed to process file: 400:
    File is empty", whatever the readers and the file service would do: the
    answer is not the 400 "File is empty" that the route raises first. *)
Theorem empty_csv_upload (lib : Library) (fx : Effects) (db : Database)
    (user : string) :
  upload_route lib fx db "x.csv" [] user
  = Raise (HTTPExc 500 "Failed to process file: 400: File is empty").
Proof. apply empty_upload. vm_compute. present. Qed.

(** ** Listing and clearing *)

Lemma length_insert_desc (d : CustomerDoc) (ds : list CustomerDoc) :
  length (insert_desc d ds) = S (length ds).
Proof.
  induction ds as [|x ds IH]; [reflexivity|].
  simpl. destruct (String.leb _ _); simpl; [|rewrite IH]; reflexivity.
Qed.

Lemma length_sort_desc (ds : list CustomerDoc) :
  length (sort_desc ds) = length ds.
Proof.
  induction ds as [|d ds IH]; [reflexivity|].
  simpl. rewrite length_insert_desc, IH. reflexivity.
Qed.

Lemma insert_desc_perm (d : CustomerDoc) (ds : list CustomerDoc) :
  insert_desc d ds ≡ₚ d :: ds.
Proof.
  induction ds as [|x ds IH]; [reflexivity|].
  simpl. destruct (String.leb _ _); [reflexivity|].
  rewrite IH. apply Permutation_swap.
Qed.

(** The sorted list holds the same documents. *)
Lemma sort_desc_perm (ds : list CustomerDoc) : sort_desc ds ≡ₚ ds.
Proof.
  induction ds as [|d ds IH]; [reflexivity|].
  simpl. rewrite insert_desc_perm, IH. reflexivity.
Qed.

Lemma insert_desc_sorted (d : CustomerDoc) (ds : list CustomerDoc) :
  Sorted latest_first ds -> Sorted latest_first (insert_desc d ds).
Proof.
  induction 1 as [|x ds Hds IH Hhd]; simpl.
  - repeat constructor.
  - destruct (String.leb (uploaded_at x) (uploaded_at d)) eqn:E.
    + repeat constructor; assumption.
    + constructor; [exact IH|].
      assert (Hxd : latest_first x d).
      { unfold latest_first.
        destruct (String.leb_total (uploaded_at x) (uploaded_at d)); congruence. }
      destruct Hhd as [|y ds' Hy]; simpl; [constructor; exact Hxd|].
      destruct (String.leb (uploaded_at y) (uploaded_at d));
        constructor; assumption.
Qed.

(** The sorted list is in descending order of [uploaded_at]. *)
Lemma sort_desc_sorted (ds : list CustomerDoc) :
  Sorted latest_first (sort_desc ds).
Proof.
  induction ds as [|d ds IH]; [constructor|].
  simpl. apply insert_desc_sorted, IH.
Qed.

Lemma Sorted_take {A} (R : A -> A -> Prop) (n : nat) (xs : list A) :
  Sorted R xs -> Sorted R (take n xs).
Proof.
  intros H; revert n; induction H as [|x xs Hxs IH Hhd]; intros [|n]; simpl;
    try constructor; auto.
  destruct Hhd as [|y ys Hy]; destruct n; simpl; constructor; assumption.
Qed.

(** X16.  The listing has at most 1000 documents, all of the user, latest
    first; up to 1000 documents it is all of them. *)
Lemma list_customers_total (db : Database) (user : string) :
  (list_customers db user).2
  = Nat.min 1000 (length (owned_by user db))
  /\ length (list_customers db user).1 = (list_customers db user).2
  /\ Forall (fun d => user_id d = user) (list_customers db user).1
  /\ Sorted latest_first (list_customers db user).1
  /\ ((length (owned_by user db) <= 1000)%nat ->
      (list_customers db user).1 ≡ₚ owned_by user db).
Proof.
  unfold list_customers; simpl. repeat split.
  - rewrite length_take, length_sort_desc. reflexivity.
  - apply Forall_take. rewrite sort_desc_perm.
    apply Forall_forall. intros d Hd.
    apply list_elem_of_filter in Hd as [Hd _]. exact Hd.
  - apply Sorted_take, sort_desc_sorted.
  - intros Hle. rewrite take_ge by (rewrite length_sort_desc; lia).
    apply sort_desc_perm.
Qed.

(** X17.  Clearing removes every document of the user, reports their
    number and leaves the documents of the other users. *)
Lemma clear_customers_all (db : Database) (user : string) :
  (clear_customers db user).1 = length (owned_by user db)
  /\ owned_by user (clear_customers db user).2 = []
  /\ forall other, other ≠ user ->
       owned_by other (clear_customers db user).2 = owned_by other db.
Proof.
  unfold clear_customers, owned_by; simpl. repeat split.
  - induction (customers db) as [|d ds IH]; [reflexivity|].
    rewrite filter_cons. destruct (decide (user_id d ≠ user)) as [Hd|Hd].
    + rewrite filter_cons, decide_False by assumption. exact IH.
    + exact IH.
  - intros other Hne.
    induction (customers db) as [|d ds IH]; [reflexivity|].
    rewrite !filter_cons.
    destruct (decide (user_id d ≠ user)) as [Hd|Hd],
             (decide (user_id d = other)) as [Ho|Ho].
    + rewrite filter_cons, decide_True by assumption. f_equal; exact IH.
    + rewrite filter_cons, decide_False by assumption. exact IH.
    + apply dec_stable in Hd. congruence.
    + exact IH.
Qed.

(** C9, at a user with 1001 customers.  The collection holds 1001
    documents of the user and the listing returns 1000 of them, with 1000 as
    its total; clearing then deletes and reports all 1001. *)
Theorem listing_stops_at_1000 :
  length (owned_by "u1" crowded) = 1001%nat
  /\ length (list_customers crowded "u1").1 = 1000%nat
  /\ (list_customers crowded "u1").2 = 1000%nat
  /\ (clear_customers crowded "u1").1 = 1001%nat.
Proof. repeat split; vm_compute; reflexivity. Qed.

(** ** From the normalised frame to the documents *)

Lemma Forall2_map_l {A B C} (P : B -> C -> Prop) (f : A -> B)
    (xs : list A) (ys : list C) :
  Forall2 P (map f xs) ys <-> Forall2 (fun x y => P (f x) y) xs ys.
Proof.
  split.
  - revert ys; induction xs as [|x xs IH]; intros ys H; inversion H; subst;
      constructor; auto.
  - induction 1; simpl; constructor; auto.
Qed.

Lemma elem_of_labels_with (labels : list string) (l l' : string) :
  l' ∈ labels_with labels l <-> l' ∈ labels \/ l' = l.
Proof.
  unfold labels_with. case_bool_decide as H.
  - split; [auto|]. intros [?| ->]; assumption.
  - rewrite elem_of_app, list_elem_of_singleton. reflexivity.
Qed.

Lemma columns_fill_defaults (df : DataFrame) (l : string) :
  l ∈ columns (fill_defaults df)
  <-> l ∈ columns df
      \/ l ∈ ["email"; "total_quantity"; "purchase_count"; "order_value"].
Proof.
  unfold fill_defaults.
  rewrite !columns_fill_missing, !elem_of_labels_with.
  rewrite !elem_of_cons, elem_of_nil. tauto.
Qed.

Lemma fill_from_present (df : DataFrame) (target source : string) (v : value) :
  target ∈ columns df -> fill_from df target source v = Ok df.
Proof.
  intros H. unfold fill_from, has_column.
  rewrite bool_decide_eq_true_2 by assumption. reflexivity.
Qed.

(** On a frame that has the three numeric columns, classification only adds
    the category column. *)
Lemma classify_customers_filled (df : DataFrame) :
  "total_quantity" ∈ columns df -> "purchase_count" ∈ columns df ->
  "order_value" ∈ columns df ->
  classify_customers df
  = (categories ← apply_classify_row df;
     match count_occ string_dec (columns df) "category" with
     | O | S O =>
         Ok (set_column df "category" (map VStr categories),
             value_counts categories)
     | _ => Unmodelled
     end).
Proof.
  intros Hq Hp Ho. unfold classify_customers.
  rewrite (fill_from_present df) by assumption. simpl.
  rewrite (fill_from_present df) by assumption. simpl.
  rewrite (fill_from_present df) by assumption. reflexivity.
Qed.

Lemma classify_customers_filled_Ok (df df' : DataFrame)
    (counts : gmap string nat) :
  "total_quantity" ∈ columns df -> "purchase_count" ∈ columns df ->
  "order_value" ∈ columns df ->
  classify_customers df = Ok (df', counts) ->
  exists cats,
    mapM classify_row (series_rows df) = Ok cats
    /\ df' = set_column df "category" (map VStr cats)
    /\ counts = value_counts cats.
Proof.
  intros Hq Hp Ho H. rewrite classify_customers_filled in H by assumption.
  apply bind_Ok in H as (cats & Hcats & H).
  apply apply_classify_row_Ok in Hcats.
  apply classify_end_Ok in H as [-> ->]. eauto.
Qed.

Lemma same_cells_set_column (l l' : string) (df : DataFrame)
    (col : list value) :
  well_formed df -> length col = length (rows df) -> l' ≠ l ->
  same_cells l' df (set_column df l col).
Proof.
  unfold same_cells, well_formed, set_column; simpl.
  generalize (columns df) as labels; intros labels Hwf Hlen Hne.
  revert col Hlen.
  induction Hwf as [|r rs Hr _ IH]; intros [|v col] Hlen; try discriminate;
    simpl; constructor.
  - symmetry; apply select_put_other; assumption.
  - apply IH. simpl in Hlen; lia.
Qed.

Lemma build_docs_Ok (fx : Effects) (filename user : string)
    (url fid : option string) (rs : list Series) (n : nat)
    (docs : list CustomerDoc) :
  build_docs fx filename user url fid n rs = Ok docs ->
  Forall2 (fun row doc =>
             exists k, customer_doc fx filename user url fid k row = Ok doc)
          rs docs.
Proof.
  revert n docs; induction rs as [|row rs IH]; intros n docs H; simpl in H.
  - injection H as <-; constructor.
  - apply bind_Ok in H as (doc & Hdoc & H).
    apply bind_Ok in H as (docs' & Hdocs & H).
    injection H as <-. constructor; eauto.
Qed.

(** The fields a document takes from its row. *)
Lemma customer_doc_Ok (fx : Effects) (filename user : string)
    (url fid : option string) (n : nat) (row : Series) (doc : CustomerDoc) :
  customer_doc fx filename user url fid n row = Ok doc -> built_from row doc.
Proof.
  unfold customer_doc, built_from, cell. rewrite !to_dict_last. intros H.
  apply bind_Ok in H as (nm & Hnm & H).
  apply bind_Ok in H as (ph & Hph & H).
  apply bind_Ok in H as (em & Hem & H).
  apply bind_Ok in H as (tq & Htq & H).
  apply bind_Ok in H as (pc & Hpc & H).
  apply bind_Ok in H as (ov & Hov & H).
  injection H as <-. simpl. repeat split; eauto.
Qed.

Lemma well_formed_normalize (raw df : DataFrame) :
  well_formed raw -> normalize raw = Ok df -> well_formed df.
Proof.
  intros Hwf H. apply normalize_Ok in H as (_ & _ & df1 & H1 & ->).
  apply clean_phones_Ok in H1 as (_ & Hwf1 & _);
    [|apply well_formed_canonical; assumption].
  apply well_formed_fill_defaults; assumption.
Qed.

(** Classification of a normalised frame leaves every cell but the
    category where it was. *)
Lemma classify_normalized (raw df classified : DataFrame)
    (counts : gmap string nat) (l : string) :
  well_formed raw -> normalize raw = Ok df ->
  classify_customers df = Ok (classified, counts) ->
  l ≠ "category" -> same_cells l df classified.
Proof.
  intros Hwf Hn Hc Hl.
  pose proof (well_formed_normalize raw df Hwf Hn) as Hwfd.
  apply normalize_Ok in Hn as (_ & _ & df1 & _ & ->).
  apply classify_customers_filled_Ok in Hc as (cats & Hcats & -> & _);
    [|apply columns_fill_defaults; right; present..].
  apply same_cells_set_column; trivial.
  rewrite length_map. apply mapM_Ok_length in Hcats. rewrite Hcats.
  unfold series_rows. apply length_map.
Qed.

(** A document depends on its row through the last cells only. *)
Lemma built_from_same_cells (row row' : Series) (doc : CustomerDoc) :
  (forall l, l ≠ "category" -> select l row = select l row') ->
  built_from row' doc -> built_from row doc.
Proof.
  intros H. unfold built_from, cell.
  rewrite !H by discriminate. trivial.
Qed.

(** The documents of an upload, read from the rows of the normalised
    frame. *)
Lemma documents_of_normalized (raw df classified : DataFrame)
    (counts : gmap string nat) (fx : Effects) (filename user : string)
    (url fid : option string) (docs : list CustomerDoc) :
  well_formed raw -> normalize raw = Ok df ->
  classify_customers df = Ok (classified, counts) ->
  build_docs fx filename user url fid O (series_rows classified) = Ok docs ->
  Forall2 built_from (series_rows df) docs.
Proof.
  intros Hwf Hn Hc Hb.
  assert (Hsame : Forall2 (fun r r' => forall l, l ≠ "category" ->
                     select l (zip (columns df) r)
                     = select l (zip (columns classified) r'))
                    (rows df) (rows classified)).
  { apply Forall2_same_length_lookup_2.
    - pose proof (classify_normalized raw df classified counts "name"
                    Hwf Hn Hc ltac:(discriminate)) as H.
      eapply Forall2_length; exact H.
    - intros i r r' Hr Hr' l Hl.
      pose proof (classify_normalized raw df classified counts l
                    Hwf Hn Hc Hl) as H.
      eapply Forall2_lookup_lr in H; eauto. }
  apply build_docs_Ok in Hb. unfold series_rows in *.
  apply Forall2_map_l in Hb. apply Forall2_map_l.
  eapply Forall2_trans; [| exact Hsame | exact Hb].
  simpl; intros r r' doc Hl (k & Hdoc).
  apply customer_doc_Ok in Hdoc.
  eapply built_from_same_cells; eauto.
Qed.

Lemma constant_after_fills (l : string) (v : value) (df : DataFrame)
    (fills : list (string * value)) :
  well_formed df -> constant_column l v df -> l ∉ fills.*1 ->
  constant_column l v
    (foldl (fun d lv => fill_missing lv.1 lv.2 d) df fills)
  /\ well_formed (foldl (fun d lv => fill_missing lv.1 lv.2 d) df fills).
Proof.
  revert df; induction fills as [|[l0 v0] fills IH]; intros df Hwf Hc Hl;
    [split; assumption|].
  simpl in *. apply not_elem_of_cons in Hl as [Hne Hl].
  apply IH; [apply well_formed_fill_missing; assumption| |assumption].
  eapply constant_column_same_cells; [exact Hc|].
  apply same_cells_fill_missing; assumption.
Qed.

(** C3, as the code has it.  A sheet without an [email], [total_quantity],
    [purchase_count] or [order_value] column gets one filled with [""], [0],
    [1] and [0]; and the documents of an upload carry [float] of the
    quantity and of the value and [int] of the count of the normalised row,
    so that a cell that Python cannot convert leaves no document: it is not
    replaced by the default. *)
Theorem defaults_and_coercions (raw df : DataFrame) :
  well_formed raw -> normalize raw = Ok df ->
  ("email" ∉ canonical_labels raw -> constant_column "email" (VStr "") df)
  /\ ("total_quantity" ∉ canonical_labels raw ->
      constant_column "total_quantity" (VInt 0) df)
  /\ ("purchase_count" ∉ canonical_labels raw ->
      constant_column "purchase_count" (VInt 1) df)
  /\ ("order_value" ∉ canonical_labels raw ->
      constant_column "order_value" (VInt 0) df)
  /\ forall fx filename user url fid classified counts docs,
       classify_customers df = Ok (classified, counts) ->
       build_docs fx filename user url fid O (series_rows classified)
       = Ok docs ->
       Forall2 (fun row doc =>
                  py_float (cell row "total_quantity" (VInt 0))
                  = Ok (total_quantity doc)
                  /\ py_int (cell row "purchase_count" (VInt 1))
                     = Ok (purchase_count doc)
                  /\ py_float (cell row "order_value" (VInt 0))
                     = Ok (order_value doc))
               (series_rows df) docs.
Proof.
  intros Hwf Hn.
  pose proof Hn as Hn'.
  apply normalize_Ok in Hn' as (_ & _ & df1 & H1 & ->).
  apply clean_phones_Ok in H1 as (Hcols & Hwf1 & _ & _);
    [|apply well_formed_canonical; assumption].
  simpl in Hcols. rewrite <- Hcols.
  set (d1 := fill_missing "email" (VStr "") df1).
  set (d2 := fill_missing "total_quantity" (VInt 0) d1).
  set (d3 := fill_missing "purchase_count" (VInt 1) d2).
  assert (Hwfd1 : well_formed d1) by (apply well_formed_fill_missing; trivial).
  assert (Hwfd2 : well_formed d2) by (apply well_formed_fill_missing; trivial).
  assert (Hwfd3 : well_formed d3) by (apply well_formed_fill_missing; trivial).
  repeat split.
  - intros Habs.
    apply (constant_after_fills "email" (VStr "") d1
             [("total_quantity", VInt 0); ("purchase_count", VInt 1);
              ("order_value", VInt 0)]); trivial; [|absent].
    apply constant_column_fill_missing; assumption.
  - intros Habs.
    apply (constant_after_fills "total_quantity" (VInt 0) d2
             [("purchase_count", VInt 1); ("order_value", VInt 0)]);
      trivial; [|absent].
    apply constant_column_fill_missing; trivial.
    unfold d1. rewrite columns_fill_missing, elem_of_labels_with.
    intros [?|?]; [contradiction|discriminate].
  - intros Habs.
    apply (constant_after_fills "purchase_count" (VInt 1) d3
             [("order_value", VInt 0)]); trivial; [|absent].
    apply constant_column_fill_missing; trivial.
    unfold d2, d1. rewrite !columns_fill_missing, !elem_of_labels_with.
    intros [[?|?]|?]; [contradiction|discriminate|discriminate].
  - intros Habs. apply constant_column_fill_missing; trivial.
    unfold d3, d2, d1. rewrite !columns_fill_missing, !elem_of_labels_with.
    intros [[[?|?]|?]|?]; [contradiction|discriminate..].
  - intros fx filename user url fid classified counts docs Hc Hb.
    eapply Forall2_impl;
      [exact (documents_of_normalized raw _ classified counts fx filename
                user url fid docs Hwf Hn Hc Hb)|].
    intros row doc (_ & _ & _ & Hq & Hp & Ho). auto.
Qed.

Lemma defaults_and_coercions_witness :
  constant_column "purchase_count" (VInt 1) punctuated_phone_normalized.
Proof.
  refine (proj1 (proj2 (proj2
            (defaults_and_coercions punctuated_phone
               punctuated_phone_normalized _ _))) _).
  - repeat constructor.
  - vm_compute; reflexivity.
  - vm_compute; absent.
Defined.

(** C3 as stated fails: a text in the quantity or in the number of orders
    of a sheet makes its upload raise in the classifier, and a text in the
    amount makes it raise in [float]; no document with a 0 or a 1 in its
    place is built. *)
Lemma non_numeric_input_is_an_error :
  upload_customers (csv_library text_quantity) clock no_customers []
                   "customers.csv" "u1" None None
  = Raise (Exc TypeError
             "'>=' not supported between instances of 'str' and 'int'")
  /\ upload_customers (csv_library text_orders) clock no_customers []
                      "customers.csv" "u1" None None
     = Raise (Exc TypeError
                "'>=' not supported between instances of 'str' and 'int'")
  /\ upload_customers (csv_library text_amount) clock no_customers []
                      "customers.csv" "u1" None None
     = Raise (Exc ValueError "could not convert string to float: 'abc'").
Proof. repeat split; vm_compute; reflexivity. Qed.

(** ** Repeated labels *)



















(** The last name of a row with two is the name of its document. *)
Example last_name_is_kept :
  exists res db,
    upload_customers (csv_library name_twice) clock no_customers []
                     "customers.csv" "u1" None None = Ok (res, db)
    /\ map name (customers_response res) = ["Ann Lee"].
Proof. eexists _, _. split; vm_compute; reflexivity. Qed.


(** * Further properties *)

(** ** The classifier on a whole frame *)

Lemma classify_row_category (row : Series) (c : string) :
  classify_row row = Ok c ->
  c ∈ ["bulk_buyer"; "frequent_customer"; "both"; "regular"].
Proof.
  unfold classify_row. intros H.
  apply bind_Ok in H as (q & _ & H).
  apply bind_Ok in H as (b & _ & H).
  apply bind_Ok in H as (f & _ & H).
  apply bind_Ok in H as (x & _ & H).
  apply bind_Ok in H as (c1 & _ & H).
  destruct c1; [injection H as <-; present|].
  apply bind_Ok in H as (c2 & _ & H).
  destruct c2; [injection H as <-; present|].
  apply bind_Ok in H as (c3 & _ & H).
  destruct c3; injection H as <-; present.
Qed.

Lemma length_column_unique (df : DataFrame) (l : string) :
  well_formed df -> count_occ string_dec (columns df) l = 1%nat ->
  length (column df l) = length (rows df).
Proof.
  intros Hwf Hone. symmetry.
  eapply Forall2_length, column_unique; eassumption.
Qed.

Lemma same_cells_set_scalar (l l' : string) (df : DataFrame) (v : value) :
  well_formed df -> l' ≠ l -> same_cells l' df (set_scalar df l v).
Proof.
  intros Hwf Hne. apply same_cells_set_column; trivial.
  apply length_replicate.
Qed.

(** What [fill_from] does to a well-formed frame: the rows stay as many,
    and the cells under the labels the frame had stay what they were. *)
Lemma fill_from_keeps (df df' : DataFrame) (target source : string)
    (v : value) :
  well_formed df -> fill_from df target source v = Ok df' ->
  well_formed df'
  /\ length (rows df') = length (rows df)
  /\ (forall l, l ∈ columns df -> l ∈ columns df')
  /\ (forall l, l ∈ columns df -> same_cells l df df').
Proof.
  intros Hwf H. split; [eapply well_formed_fill_from; eassumption|].
  unfold fill_from, has_column in H. case_bool_decide as Hin.
  { injection H as <-. repeat split; trivial. intros; apply same_cells_refl. }
  assert (Hne : forall l, l ∈ columns df -> l ≠ target) by congruence.
  destruct (count_occ string_dec (columns df) source) as [|[|n]] eqn:Hc;
    try discriminate; injection H as <-.
  - repeat split.
    + simpl. rewrite length_zip_with, length_replicate. lia.
    + intros l Hl. simpl. apply elem_of_labels_with; auto.
    + intros l Hl. apply same_cells_set_scalar; auto.
  - pose proof (length_column_unique df source Hwf Hc) as Hlen.
    repeat split.
    + simpl. rewrite length_zip_with. lia.
    + intros l Hl. simpl. apply elem_of_labels_with; auto.
    + intros l Hl. apply same_cells_set_column; auto.
Qed.

(** The steps of [classify_customers] on a well-formed frame. *)
Lemma classify_customers_inv (df df' : DataFrame) (counts : gmap string nat) :
  well_formed df -> classify_customers df = Ok (df', counts) ->
  exists filled cats,
    well_formed filled
    /\ length (rows filled) = length (rows df)
    /\ (forall l, l ∈ columns df -> l ∈ columns filled)
    /\ (forall l, l ∈ columns df -> same_cells l df filled)
    /\ mapM classify_row (series_rows filled) = Ok cats
    /\ df' = set_column filled "category" (map VStr cats)
    /\ counts = value_counts cats.
Proof.
  unfold classify_customers; intros Hwf H.
  apply bind_Ok in H as (df1 & H1 & H).
  apply bind_Ok in H as (df2 & H2 & H).
  apply bind_Ok in H as (df3 & H3 & H).
  apply bind_Ok in H as (cats & Hcats & H).
  apply apply_classify_row_Ok in Hcats.
  apply classify_end_Ok in H as [-> ->].
  apply fill_from_keeps in H1 as (Hwf1 & Hl1 & Hin1 & Hs1); trivial.
  apply fill_from_keeps in H2 as (Hwf2 & Hl2 & Hin2 & Hs2); trivial.
  apply fill_from_keeps in H3 as (Hwf3 & Hl3 & Hin3 & Hs3); trivial.
  exists df3, cats. repeat split; auto; [congruence|].
  intros l Hl.
  eapply same_cells_trans; [apply Hs1; trivial|].
  eapply same_cells_trans; [apply Hs2; auto|]. apply Hs3; auto.
Qed.

Lemma count_four (cats : list string) :
  Forall (fun c => c ∈ ["bulk_buyer"; "frequent_customer"; "both"; "regular"])
         cats ->
  (count_occ string_dec cats "bulk_buyer"
   + count_occ string_dec cats "frequent_customer"
   + count_occ string_dec cats "both"
   + count_occ string_dec cats "regular")%nat = length cats.
Proof.
  induction 1 as [|c cats Hc _ IH]; [reflexivity|].
  repeat (apply elem_of_cons in Hc as [->|Hc]);
    [..|inversion Hc]; simpl; lia.
Qed.

Lemma value_counts_default (cats : list string) (c : string) :
  default O (value_counts cats !! c) = count_occ string_dec cats c.
Proof.
  rewrite value_counts_lookup.
  destruct (count_occ string_dec cats c); reflexivity.
Qed.

Lemma mapM_Ok_Forall {A B} (f : A -> result B) (P : B -> Prop)
    (xs : list A) (ys : list B) :
  (forall x y, f x = Ok y -> P y) -> mapM f xs = Ok ys -> Forall P ys.
Proof.
  intros HP H. apply mapM_Ok_Forall2 in H.
  induction H; constructor; eauto.
Qed.

(** X1.  The counts that [classify_customers] returns have no key but the
    four categories, and they add up to the number of rows of the classified
    frame. *)
Theorem counts_add_up_to_rows (df df' : DataFrame)
    (counts : gmap string nat) :
  well_formed df -> classify_customers df = Ok (df', counts) ->
  (forall c, is_Some (counts !! c) ->
     c ∈ ["bulk_buyer"; "frequent_customer"; "both"; "regular"])
  /\ (default O (counts !! "bulk_buyer")
      + default O (counts !! "frequent_customer")
      + default O (counts !! "both")
      + default O (counts !! "regular"))%nat
     = length (rows df')
  /\ length (rows df') = length (rows df).
Proof.
  intros Hwf H.
  apply classify_customers_inv in H
    as (filled & cats & Hwff & Hsize & _ & _ & Hcats & -> & ->); trivial.
  pose proof (mapM_Ok_Forall _ _ _ _ classify_row_category Hcats) as Hfour.
  pose proof (mapM_Ok_length _ _ _ Hcats) as Hlen.
  unfold series_rows in Hlen; rewrite length_map in Hlen.
  assert (Hrows : length (rows (set_column filled "category" (map VStr cats)))
                  = length (rows filled)).
  { simpl. rewrite length_zip_with, length_map. lia. }
  repeat split.
  - intros c [n Hn]. rewrite value_counts_lookup in Hn.
    destruct (count_occ string_dec cats c) eqn:E; [discriminate|].
    assert (Hin : In c cats) by (apply (count_occ_In string_dec); lia).
    apply list_elem_of_In in Hin.
    eapply Forall_forall in Hfour; eauto.
  - rewrite !value_counts_default, count_four by assumption. lia.
  - rewrite Hrows. exact Hsize.
Qed.

Lemma counts_add_up_to_rows_witness :
  (forall c, is_Some (value_counts ["regular"] !! c) ->
     c ∈ ["bulk_buyer"; "frequent_customer"; "both"; "regular"])
  /\ (default O (value_counts ["regular"] !! "bulk_buyer")
      + default O (value_counts ["regular"] !! "frequent_customer")
      + default O (value_counts ["regular"] !! "both")
      + default O (value_counts ["regular"] !! "regular"))%nat
     = length (rows one_regular_classified)
  /\ length (rows one_regular_classified) = length (rows one_regular).
Proof.
  apply (counts_add_up_to_rows one_regular one_regular_classified
           (value_counts ["regular"])).
  - repeat constructor.
  - vm_compute; reflexivity.
Defined.

(** X2.  Classification keeps the data of a well-formed frame: the frame
    stays well formed, every label stays a label, [category] is one, the
    rows stay as many, and under every label the frame had, [category]
    apart, every row holds the cells it held. *)
Theorem classification_keeps_the_data (df df' : DataFrame)
    (counts : gmap string nat) :
  well_formed df -> classify_customers df = Ok (df', counts) ->
  well_formed df'
  /\ "category" ∈ columns df'
  /\ (forall l, l ∈ columns df -> l ∈ columns df')
  /\ (forall l, l ∈ columns df -> l ≠ "category" -> same_cells l df df').
Proof.
  intros Hwf H.
  apply classify_customers_inv in H
    as (filled & cats & Hwff & Hsize & Hin & Hsame & Hcats & -> & ->); trivial.
  repeat split.
  - apply well_formed_set_column; assumption.
  - simpl. apply elem_of_labels_with; auto.
  - intros l Hl. simpl. apply elem_of_labels_with; auto.
  - intros l Hl Hne. eapply same_cells_trans; [apply Hsame; trivial|].
    apply same_cells_set_column; trivial.
    rewrite length_map. apply mapM_Ok_length in Hcats. rewrite Hcats.
    unfold series_rows. apply length_map.
Qed.

Lemma classification_keeps_the_data_witness :
  well_formed one_regular_classified
  /\ "category" ∈ columns one_regular_classified
  /\ (forall l, l ∈ columns one_regular ->
        l ∈ columns one_regular_classified)
  /\ (forall l, l ∈ columns one_regular -> l ≠ "category" ->
        same_cells l one_regular one_regular_classified).
Proof.
  apply (classification_keeps_the_data one_regular one_regular_classified
           (value_counts ["regular"])).
  - repeat constructor.
  - vm_compute; reflexivity.
Defined.

(** X3.  The category column of the classified frame is computed: on a
    well-formed frame that has the three numeric columns, every row answers
    under [category] with what [classify_row] returns on the row as it was,
    whatever the frame held under that label before. *)
Theorem category_is_computed (df df' : DataFrame)
    (counts : gmap string nat) :
  well_formed df ->
  "total_quantity" ∈ columns df -> "purchase_count" ∈ columns df ->
  "order_value" ∈ columns df ->
  classify_customers df = Ok (df', counts) ->
  Forall2 (fun row row' =>
             exists c, classify_row row = Ok c
                       /\ to_dict row' !! "category" = Some (VStr c))
          (series_rows df) (series_rows df').
Proof.
  intros Hwf Hq Hp Ho H.
  apply classify_customers_filled_Ok in H as (cats & Hcats & -> & _);
    trivial.
  pose proof (mapM_Ok_length _ _ _ Hcats) as Hlen.
  unfold series_rows in Hlen; rewrite length_map in Hlen.
  pose proof (to_dict_set_column df "category" (map VStr cats) Hwf) as Hd.
  rewrite length_map in Hd. specialize (Hd Hlen).
  apply mapM_Ok_Forall2 in Hcats.
  revert Hd. generalize (series_rows (set_column df "category" (map VStr cats))).
  clear Hlen.
  induction Hcats as [|row c rs cs Hc _ IH]; intros [|row' rs'] Hd;
    try discriminate; constructor.
  - injection Hd as Hd _. eauto.
  - injection Hd as _ Hd. auto.
Qed.

Lemma category_is_computed_witness :
  Forall2 (fun row row' =>
             exists c, classify_row row = Ok c
                       /\ to_dict row' !! "category" = Some (VStr c))
          (series_rows one_regular) (series_rows one_regular_classified).
Proof.
  apply (category_is_computed one_regular one_regular_classified
           (value_counts ["regular"])).
  - repeat constructor.
  - present.
  - present.
  - present.
  - vm_compute; reflexivity.
Defined.


(** ** The normalised frame *)

Lemma length_rows_fill_missing (l : string) (v : value) (df : DataFrame) :
  length (rows (fill_missing l v df)) = length (rows df).
Proof. rewrite rows_fill_missing. apply length_map. Qed.

Lemma count_occ_labels_with (labels : list string) (l l' : string) :
  l' ≠ l ->
  count_occ string_dec (labels_with labels l) l'
  = count_occ string_dec labels l'.
Proof.
  intros Hne. unfold labels_with. case_bool_decide; [reflexivity|].
  rewrite count_occ_app. simpl.
  destruct (string_dec l l'); [congruence|lia].
Qed.

(** The phone cells of a frame that went through [clean_phones] and the
    fills. *)
Lemma normalized_phone_cells (raw df : DataFrame) :
  well_formed raw -> normalize raw = Ok df ->
  Forall (fun r => exists s,
            select "phone" (zip (columns df) r) = [VStr (clean_phone s)])
         (rows df).
Proof.
  intros Hwf H.
  apply normalize_Ok in H as (_ & _ & df1 & H1 & ->).
  apply clean_phones_Ok in H1 as (Hcols & Hwf1 & Hone & Hrows);
    [|apply well_formed_canonical; assumption].
  simpl in Hcols, Hone, Hrows.
  pose proof (same_cells_fill_defaults "phone" df1 Hwf1 ltac:(absent))
    as Hsame.
  unfold same_cells in Hsame.
  assert (Hcells : Forall (fun r1 => exists s,
                 select "phone" (zip (columns df1) r1)
                 = [VStr (clean_phone s)]) (rows df1)).
  { eapply Forall2_Forall_r; [exact Hrows|]. apply Forall_forall.
    intros r _ r1 (v & s & Hv & Hs & ->). exists s. rewrite Hcols.
    unfold put_cell. rewrite bool_decide_eq_true_2
      by (apply count_occ_elem_of; rewrite Hone; lia).
    rewrite select_overwrite_same, Hv. reflexivity. }
  clear Hrows. induction Hsame as [|r1 r rs1 rs E _ IH]; [constructor|].
  apply Forall_cons in Hcells as [[s Hs] Hrest].
  constructor; [exists s; congruence|auto].
Qed.

(** X4.  A frame that normalisation returns is well formed, has as many
    rows as the sheet, carries the six canonical labels and [phone] once;
    and when no phone cell of the sheet is missing, it holds a string in
    every phone cell. *)
Theorem normalized_frame_is_canonical (raw df : DataFrame) :
  well_formed raw -> normalize raw = Ok df ->
  well_formed df
  /\ length (rows df) = length (rows raw)
  /\ Forall (fun l => l ∈ columns df)
            ["name"; "phone"; "email"; "total_quantity"; "purchase_count";
             "order_value"]
  /\ count_occ string_dec (columns df) "phone" = 1%nat
  /\ (no_phone_missing raw ->
      Forall (fun r => exists s,
                select "phone" (zip (columns df) r) = [VStr s])
             (rows df)).
Proof.
  intros Hwf H.
  pose proof (well_formed_normalize raw df Hwf H) as Hwfd.
  pose proof (normalized_phone_cells raw df Hwf H) as Hph.
  apply normalize_Ok in H as (Hname & Hphone & df1 & H1 & ->).
  apply clean_phones_Ok in H1 as (Hcols & Hwf1 & Hone & Hrows);
    [|apply well_formed_canonical; assumption].
  simpl in Hcols, Hone, Hrows.
  repeat split; trivial.
  - unfold fill_defaults. rewrite !length_rows_fill_missing.
    symmetry. eapply Forall2_length; exact Hrows.
  - repeat (constructor;
            [apply columns_fill_defaults; rewrite Hcols;
             first [left; assumption | right; present]|]).
    constructor.
  - unfold fill_defaults. rewrite !columns_fill_missing.
    rewrite !count_occ_labels_with by discriminate.
    rewrite Hcols. exact Hone.
  - intros _. eapply Forall_impl; [exact Hph|]. intros r [s Hs]; eauto.
Qed.

Lemma normalized_frame_is_canonical_witness :
  well_formed punctuated_phone_normalized
  /\ length (rows punctuated_phone_normalized)
     = length (rows punctuated_phone)
  /\ Forall (fun l => l ∈ columns punctuated_phone_normalized)
            ["name"; "phone"; "email"; "total_quantity"; "purchase_count";
             "order_value"]
  /\ count_occ string_dec (columns punctuated_phone_normalized) "phone"
     = 1%nat
  /\ Forall (fun r => exists s,
               select "phone" (zip (columns punctuated_phone_normalized) r)
               = [VStr s])
            (rows punctuated_phone_normalized).
Proof.
  destruct (normalized_frame_is_canonical punctuated_phone
              punctuated_phone_normalized)
    as (Hwf & Hlen & Hlabels & Hone & Hcells).
  - repeat constructor.
  - vm_compute; reflexivity.
  - repeat split; trivial. apply Hcells. repeat constructor.
Defined.

(** ** The documents of an upload *)

Lemma strip_chars_sublist (cs : list ascii) (c : ascii) :
  c ∈ strip_chars cs -> c ∈ cs.
Proof.
  assert (L : forall xs x, x ∈ lstrip_chars xs -> x ∈ xs).
  { induction xs as [|y xs IH]; simpl; [trivial|].
    intros x. destruct (isspace y); [|trivial].
    intros Hx. apply elem_of_cons; right; auto. }
  unfold strip_chars. intros H.
  apply list_elem_of_In, in_rev, list_elem_of_In, L in H.
  apply list_elem_of_In, in_rev, list_elem_of_In, L in H. exact H.
Qed.

Lemma chars_text (cs : list ascii) : chars (text cs) = cs.
Proof. apply list_ascii_of_string_of_list_ascii. Qed.

Lemma clean_phone_chars (s : string) (c : ascii) :
  c ∈ chars (clean_phone s) -> ~ removed c.
Proof.
  rewrite clean_phone_removed, chars_text.
  intros H. apply list_elem_of_filter in H as [H _]. exact H.
Qed.

(** X5.  No stored phone has a whitespace character, a hyphen or a
    parenthesis: in every document of an upload the phone is free of the
    characters that normalisation removes. *)
Theorem stored_phones_are_clean (raw df classified : DataFrame)
    (counts : gmap string nat) (fx : Effects) (filename user : string)
    (url fid : option string) (docs : list CustomerDoc) :
  well_formed raw -> normalize raw = Ok df ->
  classify_customers df = Ok (classified, counts) ->
  build_docs fx filename user url fid O (series_rows classified) = Ok docs ->
  Forall (fun doc => forall c, c ∈ chars (phone doc) -> ~ removed c) docs.
Proof.
  intros Hwf Hn Hc Hb.
  pose proof (documents_of_normalized raw df classified counts fx filename
                user url fid docs Hwf Hn Hc Hb) as Hdocs.
  pose proof (normalized_phone_cells raw df Hwf Hn) as Hph.
  unfold series_rows in Hdocs.
  apply (proj1 (Forall2_map_l _ _ _ _)) in Hdocs.
  clear Hb. remember (rows df) as frame_rows eqn:E. clear E. revert Hph.
  induction Hdocs as [|r doc rs ds Hdoc _ IH]; intros Hph; [constructor|].
  apply Forall_cons in Hph as [[s Hs] Hrest].
  constructor; [|auto].
  destruct Hdoc as (_ & (ph & Hstr & Hphone) & _).
  unfold cell in Hstr. rewrite Hs in Hstr. simpl in Hstr.
  injection Hstr as <-. rewrite Hphone.
  intros c Hin. unfold strip in Hin. rewrite chars_text in Hin.
  apply strip_chars_sublist in Hin. eapply clean_phone_chars; eassumption.
Qed.

Lemma stored_phones_are_clean_witness :
  Forall (fun doc => forall c, c ∈ chars (phone doc) -> ~ removed c)
         [{| id := "id-0"; user_id := "u1"; name := "Ann";
             phone := "5551234567"; email := "";
             category := VStr "regular"; total_quantity := 0;
             purchase_count := 1; order_value := 0;
             uploaded_at := "2024-05-01T10:00:00+00:00";
             source_file := "customers.csv"; file_url := None;
             file_id := None; custom_fields := None |}].
Proof.
  apply (stored_phones_are_clean punctuated_phone punctuated_phone_normalized
           (mkDF ["name"; "phone"; "email"; "total_quantity";
                  "purchase_count"; "order_value"; "category"]
                 [[VStr "Ann"; VStr "5551234567"; VStr ""; VInt 0; VInt 1;
                   VInt 0; VStr "regular"]])
           (value_counts ["regular"]) clock "customers.csv" "u1" None None).
  - repeat constructor.
  - vm_compute; reflexivity.
  - vm_compute; reflexivity.
  - vm_compute; reflexivity.
Defined.

(** X6.  The custom fields of a document are the other columns of its
    row: a key of the map is no canonical field and its value is the last
    cell of the row under it, never a [nan]; every such cell is in the map;
    and a document has no map rather than an empty one. *)
Theorem custom_fields_are_the_other_columns (fx : Effects)
    (filename user : string) (url fid : option string) (n : nat)
    (row : Series) (doc : CustomerDoc) :
  customer_doc fx filename user url fid n row = Ok doc ->
  match custom_fields doc with
  | Some fields =>
      fields ≠ ∅
      /\ forall k v,
           fields !! k = Some v
           <-> last (select k row) = Some v
               /\ (k ∉ canonical_fields) /\ notna v = true
  | None =>
      forall k v,
        last (select k row) = Some v ->
        k ∈ canonical_fields \/ notna v = false
  end.
Proof.
  unfold customer_doc. intros H.
  apply bind_Ok in H as (nm & _ & H).
  apply bind_Ok in H as (ph & _ & H).
  apply bind_Ok in H as (em & _ & H).
  apply bind_Ok in H as (tq & _ & H).
  apply bind_Ok in H as (pc & _ & H).
  apply bind_Ok in H as (ov & _ & H).
  injection H as <-. simpl.
  case_bool_decide as Hempty.
  - intros k v Hk. rewrite <- to_dict_last in Hk.
    assert (Hnone : filter (fun kv : string * value =>
                      (kv.1 ∉ canonical_fields) /\ notna kv.2 = true)
                      (to_dict row) !! k = None)
      by (rewrite Hempty; apply lookup_empty).
    apply map_lookup_filter_None in Hnone as [Hnone|Hnone]; [congruence|].
    specialize (Hnone v Hk). simpl in Hnone.
    destruct (decide (k ∈ canonical_fields)); [left; trivial|right].
    destruct (notna v); [|reflexivity]. contradiction Hnone; auto.
  - split; [assumption|]. intros k v.
    rewrite map_lookup_filter_Some, to_dict_last. simpl. reflexivity.
Qed.

Lemma custom_fields_are_the_other_columns_witness :
  customer_doc clock "customers.csv" "u1" None None O ann_of_paris_row
  = Ok ann_of_paris
  /\ ({["city" := VStr "Paris"]} : gmap string value) ≠ ∅
  /\ forall k v,
       ({["city" := VStr "Paris"]} : gmap string value) !! k = Some v
       <-> last (select k ann_of_paris_row) = Some v
           /\ (k ∉ canonical_fields) /\ notna v = true.
Proof.
  assert (H : customer_doc clock "customers.csv" "u1" None None O
                           ann_of_paris_row = Ok ann_of_paris)
    by (vm_compute; reflexivity).
  split; [exact H|].
  exact (custom_fields_are_the_other_columns clock "customers.csv" "u1"
           None None O ann_of_paris_row ann_of_paris H).
Defined.

(** ** An upload and the collection *)

Lemma build_docs_fields (fx : Effects) (filename user : string)
    (url fid : option string) (rs : list Series) (n : nat)
    (docs : list CustomerDoc) :
  build_docs fx filename user url fid n rs = Ok docs ->
  length docs = length rs
  /\ map id docs = map (uuid4 fx) (seq n (length docs))
  /\ map uploaded_at docs = map (utc_now fx) (seq n (length docs))
  /\ Forall (fun d => user_id d = user /\ source_file d = filename
                      /\ file_url d = truthy url /\ file_id d = truthy fid)
            docs.
Proof.
  revert n docs; induction rs as [|row rs IH]; intros n docs H; simpl in H.
  - injection H as <-. repeat split; constructor.
  - apply bind_Ok in H as (doc & Hdoc & H).
    apply bind_Ok in H as (docs' & Hdocs & H).
    injection H as <-.
    apply IH in Hdocs as (Hlen & Hid & Hat & Hall).
    unfold customer_doc in Hdoc.
    apply bind_Ok in Hdoc as (nm & _ & Hdoc).
    apply bind_Ok in Hdoc as (ph & _ & Hdoc).
    apply bind_Ok in Hdoc as (em & _ & Hdoc).
    apply bind_Ok in Hdoc as (tq & _ & Hdoc).
    apply bind_Ok in Hdoc as (pc & _ & Hdoc).
    apply bind_Ok in Hdoc as (ov & _ & Hdoc).
    injection Hdoc as <-. simpl.
    repeat split; try (f_equal; assumption).
    constructor; [simpl; auto|assumption].
Qed.

(** The steps of a successful upload. *)
Lemma upload_customers_Ok (lib : Library) (fx : Effects) (db : Database)
    (content : bytes) (filename user : string) (url fid : option string)
    (res : UploadResult) (db' : Database) :
  upload_customers lib fx db content filename user url fid = Ok (res, db') ->
  exists df classified,
    parse_csv_file lib content filename = Ok df
    /\ classify_customers df = Ok (classified, classifications res)
    /\ build_docs fx filename user url fid O (series_rows classified)
       = Ok (customers_response res)
    /\ total_customers res = length (customers_response res)
    /\ customers db' = customers db ++ customers_response res.
Proof.
  unfold upload_customers. intros H.
  apply bind_Ok in H as (df & Hdf & H).
  apply bind_Ok in H as ([classified counts] & Hc & H).
  apply bind_Ok in H as (docs & Hdocs & H).
  injection H as <- <-. simpl. eauto 10.
Qed.

(** X7.  A successful upload appends its documents to the collection and
    changes no stored document; it reports their number; every one of them
    belongs to the uploading user, names the uploaded file and carries the
    file reference when one was given; and the [n]-th of them has the
    [n]-th identifier and the [n]-th time drawn in the request. *)
Theorem upload_appends_documents (lib : Library) (fx : Effects)
    (db : Database) (content : bytes) (filename user : string)
    (url fid : option string) (res : UploadResult) (db' : Database) :
  upload_customers lib fx db content filename user url fid = Ok (res, db') ->
  customers db' = customers db ++ customers_response res
  /\ total_customers res = length (customers_response res)
  /\ map id (customers_response res)
     = map (uuid4 fx) (seq 0 (total_customers res))
  /\ map uploaded_at (customers_response res)
     = map (utc_now fx) (seq 0 (total_customers res))
  /\ Forall (fun d => user_id d = user /\ source_file d = filename
                      /\ file_url d = truthy url /\ file_id d = truthy fid)
            (customers_response res).
Proof.
  intros H.
  apply upload_customers_Ok in H
    as (df & classified & _ & _ & Hdocs & Htotal & Hdb).
  apply build_docs_fields in Hdocs as (_ & Hid & Hat & Hall).
  rewrite Htotal. auto.
Qed.

Lemma upload_appends_documents_witness :
  customers {| customers := [ann_doc] |}
  = customers no_customers ++ customers_response ann_uploaded
  /\ total_customers ann_uploaded = length (customers_response ann_uploaded)
  /\ map id (customers_response ann_uploaded)
     = map (uuid4 clock) (seq 0 (total_customers ann_uploaded))
  /\ map uploaded_at (customers_response ann_uploaded)
     = map (utc_now clock) (seq 0 (total_customers ann_uploaded))
  /\ Forall (fun d => user_id d = "u1" /\ source_file d = "customers.csv"
                      /\ file_url d = truthy None /\ file_id d = truthy None)
            (customers_response ann_uploaded).
Proof.
  apply (upload_appends_documents (csv_library punctuated_phone) clock
           no_customers [] "customers.csv" "u1" None None ann_uploaded
           {| customers := [ann_doc] |}).
  vm_compute; reflexivity.
Defined.

Lemma owned_by_app (user : string) (ds1 ds2 : list CustomerDoc) :
  owned_by user {| customers := ds1 ++ ds2 |}
  = owned_by user {| customers := ds1 |}
    ++ owned_by user {| customers := ds2 |}.
Proof. unfold owned_by; simpl. apply filter_app. Qed.

Lemma owned_by_all (user : string) (ds : list CustomerDoc) :
  Forall (fun d => user_id d = user) ds ->
  owned_by user {| customers := ds |} = ds.
Proof.
  unfold owned_by; simpl. induction 1 as [|d ds Hd _ IH]; [reflexivity|].
  rewrite filter_cons, decide_True by assumption. f_equal; exact IH.
Qed.

Lemma owned_by_none (user other : string) (ds : list CustomerDoc) :
  other ≠ user -> Forall (fun d => user_id d = user) ds ->
  owned_by other {| customers := ds |} = [].
Proof.
  unfold owned_by; simpl. intros Hne.
  induction 1 as [|d ds Hd _ IH]; [reflexivity|].
  rewrite filter_cons, decide_False by congruence. exact IH.
Qed.

Lemma clear_customers_facts (db : Database) (user : string) :
  (clear_customers db user).1 = length (owned_by user db)
  /\ owned_by user (clear_customers db user).2 = []
  /\ forall other, other ≠ user ->
       owned_by other (clear_customers db user).2 = owned_by other db.
Proof.
  unfold clear_customers, owned_by; simpl. repeat split.
  - induction (customers db) as [|d ds IH]; [reflexivity|].
    rewrite filter_cons. destruct (decide (user_id d ≠ user)) as [Hd|Hd];
      [rewrite filter_cons, decide_False by assumption|]; exact IH.
  - intros other Hne.
    induction (customers db) as [|d ds IH]; [reflexivity|].
    rewrite !filter_cons.
    destruct (decide (user_id d ≠ user)) as [Hd|Hd],
             (decide (user_id d = other)) as [Ho|Ho].
    + rewrite filter_cons, decide_True by assumption. f_equal; exact IH.
    + rewrite filter_cons, decide_False by assumption. exact IH.
    + apply dec_stable in Hd. congruence.
    + exact IH.
Qed.

(** X8.  Uploading and then clearing: after a successful upload the user
    owns the documents owned before and the new ones, the users that did not
    upload own what they owned; clearing then reports that many documents
    and leaves the user none; and while they are at most 1000 the listing
    returns exactly them. *)
Theorem upload_then_clear (lib : Library) (fx : Effects) (db : Database)
    (content : bytes) (filename user : string) (url fid : option string)
    (res : UploadResult) (db' : Database) :
  upload_customers lib fx db content filename user url fid = Ok (res, db') ->
  owned_by user db' = owned_by user db ++ customers_response res
  /\ (forall other, other ≠ user -> owned_by other db' = owned_by other db)
  /\ (clear_customers db' user).1
     = (length (owned_by user db) + total_customers res)%nat
  /\ owned_by user (clear_customers db' user).2 = []
  /\ ((length (owned_by user db) + total_customers res <= 1000)%nat ->
      (list_customers db' user).1
      ≡ₚ owned_by user db ++ customers_response res).
Proof.
  intros H.
  apply upload_customers_Ok in H
    as (df & classified & _ & _ & Hdocs & Htotal & Hdb).
  apply build_docs_fields in Hdocs as (_ & _ & _ & Hall).
  assert (Hmine : Forall (fun d => user_id d = user) (customers_response res))
    by (eapply Forall_impl; [exact Hall|]; simpl; tauto).
  assert (Hown : owned_by user db'
                 = owned_by user db ++ customers_response res).
  { destruct db' as [ds']; simpl in Hdb; subst ds'.
    rewrite owned_by_app, (owned_by_all user _ Hmine).
    destruct db; reflexivity. }
  destruct (clear_customers_facts db' user) as (Hcount & Hnone & _).
  repeat split; trivial.
  - intros other Hne. destruct db' as [ds']; simpl in Hdb; subst ds'.
    rewrite owned_by_app, (owned_by_none user other _ Hne Hmine), app_nil_r.
    destruct db; reflexivity.
  - rewrite Hcount, Hown, length_app, Htotal. reflexivity.
  - intros Hle. unfold list_customers; simpl.
    rewrite take_ge
      by (rewrite length_sort_desc, Hown, length_app, <- Htotal; lia).
    rewrite sort_desc_perm, Hown. reflexivity.
Qed.

Lemma upload_then_clear_witness :
  owned_by "u1" {| customers := [ann_doc] |}
  = owned_by "u1" no_customers ++ customers_response ann_uploaded
  /\ (forall other, other ≠ "u1" ->
        owned_by other {| customers := [ann_doc] |}
        = owned_by other no_customers)
  /\ (clear_customers {| customers := [ann_doc] |} "u1").1
     = (length (owned_by "u1" no_customers)
        + total_customers ann_uploaded)%nat
  /\ owned_by "u1" (clear_customers {| customers := [ann_doc] |} "u1").2 = []
  /\ ((length (owned_by "u1" no_customers)
       + total_customers ann_uploaded <= 1000)%nat ->
      (list_customers {| customers := [ann_doc] |} "u1").1
      ≡ₚ owned_by "u1" no_customers ++ customers_response ann_uploaded).
Proof.
  apply (upload_then_clear (csv_library punctuated_phone) clock
           no_customers [] "customers.csv" "u1" None None ann_uploaded
           {| customers := [ann_doc] |}).
  vm_compute; reflexivity.
Defined.

(** ** What the PDF reader and the route raise *)

(** X9.  Whatever the PDF library does, [_parse_pdf_file] raises nothing
    but a [ValueError]: the exceptions of the table pass are caught, and
    those of the text pass are raised again as one. *)
Theorem pdf_reader_raises_value_errors (lib : Library) (content : bytes)
    (e : exn) :
  _parse_pdf_file lib content = Raise e -> is_ValueError e = true.
Proof.
  unfold _parse_pdf_file, fallback.
  destruct (pdfplumber lib) as [open|]; [|intros H; injection H as <-; reflexivity].
  destruct (open content ≫= extract_from_tables) as [df|e1|]; simpl;
    [discriminate| |discriminate].
  destruct (open content ≫= extract_from_text) as [df|e2|]; simpl;
    [discriminate| |discriminate].
  intros H; injection H as <-. reflexivity.
Qed.

Lemma pdf_reader_raises_value_errors_witness :
  is_ValueError
    (Exc ValueError
       "Failed to extract data from PDF: PDF does not contain enough data. Please ensure the PDF contains a table with customer data.")
  = true.
Proof.
  apply (pdf_reader_raises_value_errors
           (pdf_library [{| extract_tables := Raise (Exc OtherError "unreadable page stream");
                            extract_text := Ok (Some "name  phone") |}])
           []).
  vm_compute; reflexivity.
Defined.

(** X10.  The upload route lets no exception out but an [HTTPException]
    with status 400 or 500; and a refusal of the route itself (an extension
    that is not allowed, an empty file) is answered with 500. *)
Theorem upload_route_answers (lib : Library) (fx : Effects) (db : Database)
    (filename : string) (content : bytes) (user : string) (e : exn) :
  upload_route lib fx db filename content user = Raise e ->
  (exists detail, e = HTTPExc 400 detail \/ e = HTTPExc 500 detail)
  /\ (("." ++ lower (after_last_dot filename))%string ∉ allowed_extensions
      \/ content = [] ->
      exists detail, e = HTTPExc 500 detail).
Proof.
  unfold upload_route, route_handlers, try_except.
  case_bool_decide as Hext.
  - case_bool_decide as Hempty.
    + intros H; injection H as <-. split; [eauto|]. eauto.
    + destruct (upload_file lib filename content ≫= _) as [r|e1|] eqn:E;
        try discriminate.
      intros H. split.
      * destruct (is_ValueError e1); injection H as <-; eauto.
      * intros [Hno | ->]; [contradiction|]. contradiction Hempty. reflexivity.
  - intros H; injection H as <-. split; eauto.
Qed.

Lemma upload_route_answers_witness :
  (exists detail,
     HTTPExc 500 "Failed to process file: 400: Unsupported file format. Allowed: .csv, .xlsx, .xls, .pdf"
     = HTTPExc 400 detail
     \/ HTTPExc 500 "Failed to process file: 400: Unsupported file format. Allowed: .csv, .xlsx, .xls, .pdf"
        = HTTPExc 500 detail)
  /\ ((".txt")%string ∉ allowed_extensions \/ [Byte.x61] = [] ->
      exists detail,
        HTTPExc 500 "Failed to process file: 400: Unsupported file format. Allowed: .csv, .xlsx, .xls, .pdf"
        = HTTPExc 500 detail).
Proof.
  apply (upload_route_answers (csv_library one_regular) clock no_customers
           "notes.txt" [Byte.x61] "u1").
  vm_compute; reflexivity.
Defined.

(** ** Lines and tokens of the text pass *)

Lemma isspace_tab : isspace "009"%char = true.
Proof. reflexivity. Qed.

Lemma re_split_nonempty (in_run : bool) (cs : list ascii) :
  re_split in_run cs ≠ [].
Proof.
  revert in_run; induction cs as [|c cs IH]; intros in_run; simpl;
    [discriminate|].
  destruct (isspace c), in_run; try apply IH;
    try (destruct (re_split false cs); discriminate);
    destruct cs as [|d cs']; try destruct (isspace d);
    try destruct (Ascii.eqb c "009"); try discriminate;
    match goal with
    | |- context [re_split ?b ?l] => destruct (re_split b l); discriminate
    end.
Qed.

Lemma Forall_push (P : list ascii -> Prop) (c : ascii)
    (pieces : list (list ascii)) :
  (forall p, P p -> P (c :: p)) -> P [] -> Forall P pieces ->
  Forall P match pieces with
           | p :: ps => (c :: p) :: ps
           | [] => [[c]]
           end.
Proof.
  intros Hc Hnil [|p ps Hp Hps]; constructor; auto.
Qed.

Lemma re_split_no_tab (in_run : bool) (cs : list ascii) :
  Forall (fun p => "009"%char ∉ p) (re_split in_run cs).
Proof.
  assert (Hnil : "009"%char ∉ @nil ascii) by apply not_elem_of_nil.
  assert (Hpush : forall c pieces, c ≠ "009"%char ->
            Forall (fun p => "009"%char ∉ p) pieces ->
            Forall (fun p => "009"%char ∉ p)
                   match pieces with
                   | p :: ps => (c :: p) :: ps
                   | [] => [[c]]
                   end).
  { intros c pieces Hc. apply Forall_push; trivial.
    intros p Hp. apply not_elem_of_cons; auto. }
  revert in_run; induction cs as [|c cs IH]; intros in_run; simpl.
  { repeat constructor; assumption. }
  destruct (isspace c) eqn:Ec.
  - destruct in_run; [apply IH|].
    destruct cs as [|d cs'].
    + destruct (Ascii.eqb c "009") eqn:Et.
      * constructor; [assumption|apply (IH false)].
      * apply Ascii.eqb_neq in Et. apply Hpush; [assumption|apply (IH false)].
    + destruct (isspace d).
      * constructor; [assumption|apply IH].
      * destruct (Ascii.eqb c "009") eqn:Et.
        -- constructor; [assumption|apply (IH false)].
        -- apply Ascii.eqb_neq in Et.
           apply Hpush; [assumption|apply (IH false)].
  - apply Hpush; [|apply IH]. intros ->. rewrite isspace_tab in Ec.
    discriminate.
Qed.

Lemma re_split_single_spaced (cs : list ascii) :
  "009"%char ∉ cs -> single_spaced cs -> re_split false cs = [cs].
Proof.
  induction cs as [|c cs IH]; intros Htab Hsp; [reflexivity|].
  apply not_elem_of_cons in Htab as [Hc Htab].
  assert (Hrest : single_spaced cs)
    by (destruct cs; [exact I|apply Hsp]).
  specialize (IH Htab Hrest). simpl.
  assert (Et : Ascii.eqb c "009" = false)
    by (apply Ascii.eqb_neq; congruence).
  destruct (isspace c) eqn:Ec; [|rewrite IH; reflexivity].
  destruct cs as [|d cs']; rewrite Et; [reflexivity|].
  destruct (isspace d) eqn:Ed.
  - destruct Hsp as [Hsp _]. contradiction Hsp; auto.
  - rewrite IH; reflexivity.
Qed.

Lemma text_chars (s : string) : text (chars s) = s.
Proof. apply string_of_list_ascii_of_string. Qed.

(** X11.  The tokens of a line: there is at least one; no token contains
    a tab; and a line without a tab and without two whitespace characters
    side by side is one token, its single spaces kept. *)
Theorem tokens_of_a_line (line : string) :
  tokens line ≠ []
  /\ Forall (fun t => "009"%char ∉ chars t) (tokens line)
  /\ ("009"%char ∉ chars line -> single_spaced (chars line) ->
      tokens line = [line]).
Proof.
  unfold tokens. repeat split.
  - intros H. apply map_eq_nil in H. eapply re_split_nonempty; eassumption.
  - pose proof (re_split_no_tab false (chars line)) as H.
    induction H; simpl; constructor; auto. rewrite chars_text; assumption.
  - intros Htab Hsp. rewrite re_split_single_spaced by assumption.
    simpl. rewrite text_chars. reflexivity.
Qed.

Lemma lstrip_chars_head (cs : list ascii) :
  match lstrip_chars cs with
  | c :: _ => isspace c = false
  | [] => True
  end.
Proof.
  induction cs as [|c cs IH]; simpl; [exact I|].
  destruct (isspace c) eqn:E; [exact IH|exact E].
Qed.

Lemma lstrip_chars_id (cs : list ascii) :
  match cs with
  | c :: _ => isspace c = false
  | [] => True
  end ->
  lstrip_chars cs = cs.
Proof. destruct cs as [|c cs]; simpl; [trivial|]. intros ->. reflexivity. Qed.

Lemma lstrip_chars_suffix (cs : list ascii) :
  exists pre, cs = pre ++ lstrip_chars cs.
Proof.
  induction cs as [|c cs [pre IH]]; simpl; [exists []; reflexivity|].
  destruct (isspace c); [|exists []; reflexivity].
  exists (c :: pre). simpl. f_equal. exact IH.
Qed.

(** Stripping a stripped string changes nothing. *)
Lemma strip_chars_idempotent (cs : list ascii) :
  strip_chars (strip_chars cs) = strip_chars cs.
Proof.
  unfold strip_chars.
  set (A := lstrip_chars cs). set (B := lstrip_chars (rev A)).
  assert (HB : lstrip_chars B = B)
    by (apply lstrip_chars_id, lstrip_chars_head).
  assert (HrB : lstrip_chars (rev B) = rev B).
  { apply lstrip_chars_id.
    destruct (lstrip_chars_suffix (rev A)) as [pre Hpre]. fold B in Hpre.
    assert (HA : A = rev B ++ rev pre)
      by (rewrite <- rev_app_distr, <- Hpre, rev_involutive; reflexivity).
    pose proof (lstrip_chars_head cs) as Hhead. fold A in Hhead.
    destruct (rev B) as [|b bs]; [exact I|].
    rewrite HA in Hhead. exact Hhead. }
  rewrite HrB, rev_involutive, HB. reflexivity.
Qed.

Lemma split_chars_nonempty (sep : ascii) (cs : list ascii) :
  split_chars sep cs ≠ [].
Proof.
  induction cs as [|c cs IH]; simpl; [discriminate|].
  destruct (split_chars sep cs); [discriminate|].
  destruct (Ascii.eqb c sep); discriminate.
Qed.

Lemma split_chars_no_sep (sep : ascii) (cs : list ascii) :
  Forall (fun p => sep ∉ p) (split_chars sep cs).
Proof.
  induction cs as [|c cs IH]; simpl.
  { repeat constructor. apply not_elem_of_nil. }
  pose proof (split_chars_nonempty sep cs) as Hne.
  destruct (split_chars sep cs) as [|piece pieces]; [congruence|].
  apply Forall_cons in IH as [Hp Hps].
  destruct (Ascii.eqb c sep) eqn:E.
  - repeat constructor; trivial. apply not_elem_of_nil.
  - apply Ascii.eqb_neq in E. constructor; [|assumption].
    apply not_elem_of_cons; split; [congruence|assumption].
Qed.

(** X12.  The lines the text pass works on: none is empty, none holds a
    line feed, and each is trimmed already, so that stripping it again gives
    the same line. *)
Theorem lines_are_trimmed (t : string) :
  Forall (fun l => l ≠ "" /\ ("010"%char ∉ chars l) /\ strip l = l)
         (nonempty_lines t).
Proof.
  unfold nonempty_lines. apply Forall_forall. intros l Hl.
  apply list_elem_of_filter in Hl as [Hne Hl].
  apply list_elem_of_In, in_map_iff in Hl as (piece & <- & Hpiece).
  unfold split in Hpiece. apply in_map_iff in Hpiece as (cs & <- & Hcs).
  repeat split; [exact Hne| |].
  - unfold strip. rewrite !chars_text. intros Hin.
    apply strip_chars_sublist in Hin.
    pose proof (split_chars_no_sep "010"%char (chars t)) as Hall.
    eapply Forall_forall in Hall; [|apply list_elem_of_In; exact Hcs].
    contradiction.
  - unfold strip. rewrite !chars_text, strip_chars_idempotent. reflexivity.
Qed.

(** ** The frames of the PDF reader *)

Lemma width_bounds {A} (r : list A) (data : list (list A)) :
  r ∈ data ->
  (length r <= foldr (fun r w => Nat.max (length r) w) O data)%nat.
Proof.
  induction 1 as [r data|r r' data _ IH]; simpl; lia.
Qed.

(** A frame built from lists carries the header, one cell per label in
    every row, and strings only. *)
Lemma frame_of_lists_good (header : list string)
    (data : list (list (option string))) (df : DataFrame) :
  frame_of_lists filled header data = Ok df ->
  columns df = header
  /\ well_formed df
  /\ Forall (Forall is_str) (rows df)
  /\ length (rows df) = length data.
Proof.
  unfold frame_of_lists. case_bool_decide as Hw; [|discriminate].
  intros H; injection H as <-. unfold well_formed; simpl.
  repeat split.
  - apply Forall_forall. intros r' Hr'.
    apply list_elem_of_In, in_map_iff in Hr' as (r & <- & Hr).
    apply list_elem_of_In, width_bounds in Hr.
    rewrite length_map, length_app, length_replicate. lia.
  - apply Forall_forall. intros r' Hr'.
    apply list_elem_of_In, in_map_iff in Hr' as (r & <- & _).
    apply Forall_forall. intros v Hv.
    apply list_elem_of_In, in_map_iff in Hv as ([s|] & <- & _); exact I.
  - apply length_map.
Qed.

Lemma table_frame_good (t : table) (df : DataFrame) :
  table_frame t = Ok (Some df) ->
  well_formed df /\ Forall (Forall is_str) (rows df).
Proof.
  unfold table_frame. destruct t as [|header [|row more]]; try discriminate.
  destruct (labels_of header); [|discriminate]. intros H.
  apply bind_Ok in H as (d & Hd & H). injection H as <-.
  apply frame_of_lists_good in Hd as (_ & Hwf & Hstr & _). auto.
Qed.

Lemma pd_concat_good (frames : list DataFrame) (df : DataFrame) :
  Forall (fun d => well_formed d /\ Forall (Forall is_str) (rows d)) frames ->
  pd_concat frames = Ok df ->
  well_formed df /\ Forall (Forall is_str) (rows df).
Proof.
  unfold pd_concat. destruct frames as [|d rest]; [discriminate|].
  destruct (forallb _ rest) eqn:Hsame; [|discriminate].
  intros Hall H. injection H as <-. unfold well_formed; cbn [columns rows].
  assert (Hcols : Forall (fun d' => columns d' = columns d) (d :: rest)).
  { constructor; [reflexivity|]. apply Forall_forall. intros d' Hd'.
    rewrite forallb_forall in Hsame.
    apply list_elem_of_In, Hsame, bool_decide_eq_true in Hd'. exact Hd'. }
  clear Hsame.
  change (rows d ++ flat_map rows rest) with (flat_map rows (d :: rest)).
  revert Hall Hcols. generalize (d :: rest) as frames.
  induction frames as [|d' frames IH]; intros Hall Hcols; simpl;
    [split; constructor|].
  apply Forall_cons in Hall as [[Hwf Hstr] Hall].
  apply Forall_cons in Hcols as [Hc Hcols].
  destruct (IH Hall Hcols) as [IH1 IH2].
  split; apply Forall_app; split; trivial.
  unfold well_formed in Hwf. rewrite Hc in Hwf. exact Hwf.
Qed.

Lemma mapM_Ok_Forall_in {A B} (f : A -> result B) (xs : list A)
    (ys : list B) :
  mapM f xs = Ok ys -> Forall (fun y => exists x, x ∈ xs /\ f x = Ok y) ys.
Proof.
  intros H. apply mapM_Ok_Forall2 in H.
  induction H as [|x y xs ys Hxy _ IH]; constructor.
  - exists x; split; [constructor|assumption].
  - eapply Forall_impl; [exact IH|]. intros y' (x' & Hin & Hx').
    exists x'; split; [constructor; assumption|assumption].
Qed.

Lemma extract_from_tables_good (pages : list Page) (df : DataFrame) :
  extract_from_tables pages = Ok df ->
  well_formed df /\ Forall (Forall is_str) (rows df).
Proof.
  unfold extract_from_tables. intros H.
  apply bind_Ok in H as (per_page & Hpp & H).
  assert (Hall : Forall (fun d => well_formed d
                                  /\ Forall (Forall is_str) (rows d))
                        (omap Datatypes.id (List.concat per_page))).
  { apply Forall_forall. intros d Hd.
    apply list_elem_of_omap in Hd as (o & Ho & Hsome). simpl in Hsome.
    subst o. apply list_elem_of_In, in_concat in Ho as (frames & Hf & Ho).
    apply mapM_Ok_Forall_in in Hpp.
    eapply Forall_forall in Hpp; [|apply list_elem_of_In; exact Hf].
    destruct Hpp as (page & _ & Hpage).
    apply bind_Ok in Hpage as (tables & _ & Hframes).
    apply mapM_Ok_Forall_in in Hframes.
    eapply Forall_forall in Hframes; [|apply list_elem_of_In; exact Ho].
    destruct Hframes as (t & _ & Ht). eapply table_frame_good; eassumption. }
  destruct (omap Datatypes.id (List.concat per_page)) as [|d ds] eqn:E;
    [discriminate|].
  eapply pd_concat_good; eassumption.
Qed.

Lemma extract_from_text_good (pages : list Page) (df : DataFrame) :
  extract_from_text pages = Ok df ->
  well_formed df /\ Forall (Forall is_str) (rows df).
Proof.
  unfold extract_from_text. intros H.
  apply bind_Ok in H as (texts & _ & H).
  destruct (nonempty_lines _) as [|first [|second more]]; try discriminate.
  destruct (data_rows _ _) as [|row rows']; [discriminate|].
  apply frame_of_lists_good in H as (_ & Hwf & Hstr & _). auto.
Qed.

(** X13.  A frame the PDF reader returns, from the tables or from the
    text, is well formed and holds strings only: no cell is a number and
    none is missing. *)
Theorem pdf_frames_hold_strings (lib : Library) (content : bytes)
    (df : DataFrame) :
  _parse_pdf_file lib content = Ok df ->
  well_formed df /\ Forall (Forall is_str) (rows df).
Proof.
  unfold _parse_pdf_file, fallback, try_except.
  destruct (pdfplumber lib) as [open|]; [|discriminate].
  destruct (open content) as [pages| |]; simpl.
  - destruct (extract_from_tables pages) as [d|e|] eqn:Et.
    + intros H; injection H as <-. eapply extract_from_tables_good, Et.
    + destruct (extract_from_text pages) as [d|e'|] eqn:Ex; try discriminate.
      intros H; injection H as <-. eapply extract_from_text_good, Ex.
    + discriminate.
  - discriminate.
  - discriminate.
Qed.

Lemma pdf_frames_hold_strings_witness :
  well_formed (mkDF ["name"; "phone"; "email"]
                    [[VStr "Ann"; VStr "5551234567";
                      VStr "ann@example.org"]])
  /\ Forall (Forall is_str)
            (rows (mkDF ["name"; "phone"; "email"]
                        [[VStr "Ann"; VStr "5551234567";
                          VStr "ann@example.org"]])).
Proof.
  apply (pdf_frames_hold_strings (pdf_library [three_and_two]) []).
  vm_compute; reflexivity.
Defined.

(** ** The message template *)

Lemma chars_app (a b : string) : chars (a ++ b)%string = chars a ++ chars b.
Proof.
  unfold chars. induction a as [|c a IH]; [reflexivity|].
  simpl. f_equal. exact IH.
Qed.

Lemma starts_with_true (p s : list ascii) :
  starts_with p s = true -> exists post, s = p ++ post.
Proof.
  revert s; induction p as [|a p IH]; intros s H; [exists s; reflexivity|].
  destruct s as [|b s]; [discriminate|]. simpl in H.
  apply andb_true_iff in H as [Hab Hp]. apply Ascii.eqb_eq in Hab as ->.
  destruct (IH s Hp) as [post ->]. exists post; reflexivity.
Qed.

Lemma starts_with_app (p rest : list ascii) : starts_with p (p ++ rest) = true.
Proof.
  induction p as [|a p IH]; [reflexivity|].
  simpl. rewrite Ascii.eqb_refl, IH. reflexivity.
Qed.

(** A text in which [old] does not stand is not changed. *)
Lemma replace_chars_absent (old new s : list ascii) :
  (forall pre post, s ≠ pre ++ old ++ post) ->
  replace_chars old new O s = s.
Proof.
  induction s as [|c s IH]; intros Habs; [reflexivity|].
  simpl replace_chars.
  destruct (starts_with old (c :: s)) eqn:E.
  - apply starts_with_true in E as [post E].
    contradiction (Habs [] post).
  - f_equal. apply IH. intros pre post ->.
    contradiction (Habs (c :: pre) post). reflexivity.
Qed.

Lemma str_replace_absent (key new template : string) :
  ~ occurs (placeholder key) template ->
  str_replace (placeholder key) new template = template.
Proof.
  intros Habs. unfold str_replace.
  change (chars (placeholder key))
    with ("{"%char :: "{"%char :: chars (key ++ "}}")%string) in *.
  cbv iota. rewrite replace_chars_absent; [apply text_chars|].
  intros pre post E. apply Habs. exists pre, post. exact E.
Qed.

(** X14.  Data the template does not ask for are ignored: when the
    placeholder of no key stands in the template, the message is the
    template. *)
Theorem unused_data_leave_the_template (template : string)
    (customer_data : list (string * value)) :
  Forall (fun kv => ~ occurs (placeholder kv.1) template
                    /\ exists s, py_str kv.2 = Ok s) customer_data ->
  prepare_message template customer_data = Ok template.
Proof.
  induction 1 as [|[key v] items [Habs [s Hs]] _ IH]; [reflexivity|].
  simpl in *. rewrite Hs. simpl.
  rewrite str_replace_absent by assumption. exact IH.
Qed.

Lemma unused_data_leave_the_template_witness :
  prepare_message "Dear {{name}}, your order is ready."
                  [("phone", VStr "5551234567"); ("purchase_count", VInt 2)]
  = Ok "Dear {{name}}, your order is ready.".
Proof.
  apply unused_data_leave_the_template.
  repeat constructor; simpl; eauto;
    intros (pre & post & E); vm_compute in E;
    repeat (destruct pre as [|? pre]; [discriminate E|];
            injection E as _ E);
    destruct pre; discriminate E.
Defined.

Lemma replace_chars_skip (old new xs rest : list ascii) :
  replace_chars old new (length xs) (xs ++ rest)
  = match rest with
    | [] => []
    | _ => replace_chars old new O rest
    end.
Proof.
  induction xs as [|x xs IH]; simpl; [destruct rest; reflexivity|].
  exact IH.
Qed.

Lemma replace_chars_nil (old new : list ascii) (k : nat) :
  replace_chars old new k [] = [].
Proof. reflexivity. Qed.

Lemma replace_chars_plain (old new piece rest : list ascii) :
  "{"%char ∉ piece ->
  replace_chars ("{"%char :: old) new O (piece ++ rest)
  = piece ++ replace_chars ("{"%char :: old) new O rest.
Proof.
  induction piece as [|c piece IH]; intros Hc; [reflexivity|].
  apply not_elem_of_cons in Hc as [Hne Hc].
  assert (E : Ascii.eqb "{" c = false)
    by (apply Ascii.eqb_neq; congruence).
  change (replace_chars ("{"%char :: old) new O ((c :: piece) ++ rest))
    with (if Ascii.eqb "{" c && starts_with old (piece ++ rest)
          then new ++ replace_chars ("{"%char :: old) new
                        (length ("{"%char :: old) - 1) (piece ++ rest)
          else c :: replace_chars ("{"%char :: old) new O (piece ++ rest)).
  rewrite E. simpl. f_equal. apply IH; assumption.
Qed.

Lemma replace_chars_match (old new rest : list ascii) :
  replace_chars ("{"%char :: old) new O (("{"%char :: old) ++ rest)
  = new ++ replace_chars ("{"%char :: old) new O rest.
Proof.
  change (replace_chars ("{"%char :: old) new O (("{"%char :: old) ++ rest))
    with (if starts_with ("{"%char :: old) (("{"%char :: old) ++ rest)
          then new ++ replace_chars ("{"%char :: old) new
                        (length ("{"%char :: old) - 1) (old ++ rest)
          else "{"%char :: replace_chars ("{"%char :: old) new O (old ++ rest)).
  rewrite starts_with_app.
  replace (length ("{"%char :: old) - 1)%nat with (length old)
    by (simpl; lia).
  rewrite replace_chars_skip. destruct rest; reflexivity.
Qed.

Lemma replace_chars_join (old : list ascii) (key_text new : string)
    (pieces : list string) :
  chars key_text = "{"%char :: old ->
  Forall (fun p => "{"%char ∉ chars p) pieces ->
  replace_chars ("{"%char :: old) (chars new) O (chars (join key_text pieces))
  = chars (join new pieces).
Proof.
  intros Hkey. induction 1 as [|p ps Hp Hps IH]; [reflexivity|].
  destruct ps as [|q qs].
  - simpl join. rewrite <- (app_nil_r (chars p)) at 1.
    rewrite replace_chars_plain by assumption. simpl. apply app_nil_r.
  - change (join key_text (p :: q :: qs))
      with (p ++ key_text ++ join key_text (q :: qs))%string.
    change (join new (p :: q :: qs))
      with (p ++ new ++ join new (q :: qs))%string.
    rewrite !chars_app, Hkey, replace_chars_plain by assumption.
    rewrite replace_chars_match, IH. reflexivity.
Qed.

(** X15.  Every occurrence of the placeholder of a key is replaced by the
    text of its value and the text around is kept: a template made of
    pieces without a brace, joined by the placeholder, becomes the pieces
    joined by the value. *)
Theorem placeholders_are_replaced (key : string) (v : value) (s : string)
    (pieces : list string) :
  py_str v = Ok s ->
  Forall (fun p => "{"%char ∉ chars p) pieces ->
  prepare_message (join (placeholder key) pieces) [(key, v)]
  = Ok (join s pieces).
Proof.
  intros Hs Hpieces. simpl. rewrite Hs. simpl. f_equal.
  unfold str_replace.
  change (chars (placeholder key))
    with ("{"%char :: "{"%char :: chars (key ++ "}}")%string).
  cbv iota.
  rewrite (replace_chars_join _ (placeholder key) s pieces)
    by (trivial; reflexivity).
  apply text_chars.
Qed.

Lemma placeholders_are_replaced_witness :
  prepare_message "Dear {{name}}, thank you, {{name}}!" [("name", VStr "Ann")]
  = Ok "Dear Ann, thank you, Ann!".
Proof.
  apply (placeholders_are_replaced "name" (VStr "Ann") "Ann"
           ["Dear "; ", thank you, "; "!"]).
  - reflexivity.
  - repeat constructor; vm_compute; absent.
Defined.

(** ** The extension of the file name *)

Lemma lower_char_idempotent (a : ascii) :
  lower_char (lower_char a) = lower_char a.
Proof. destruct a as [[] [] [] [] [] [] [] []]; reflexivity. Qed.

Lemma lower_char_dot (a : ascii) : lower_char a = "."%char <-> a = "."%char.
Proof.
  split; [|intros ->; reflexivity].
  destruct a as [[] [] [] [] [] [] [] []]; vm_compute; congruence.
Qed.

Lemma chars_lower (s : string) : chars (lower s) = map lower_char (chars s).
Proof. apply chars_text. Qed.

Lemma lower_idempotent (s : string) : lower (lower s) = lower s.
Proof.
  unfold lower at 1. rewrite chars_lower, map_map. unfold lower. f_equal.
  apply map_ext. intros; apply lower_char_idempotent.
Qed.

Lemma dot_lower (s : string) :
  "."%char ∈ chars (lower s) <-> "."%char ∈ chars s.
Proof.
  rewrite chars_lower, !list_elem_of_In, in_map_iff. split.
  - intros (a & Ha & Hin). apply lower_char_dot in Ha as ->. exact Hin.
  - intros Hin. exists "."%char. split; [reflexivity|exact Hin].
Qed.

(** X18.  The letter case of the file name does not matter to the parser:
    a name and its lower-case form are parsed alike. *)
Theorem extension_case_is_ignored (lib : Library) (content : bytes)
    (filename : string) :
  parse_csv_file lib content (lower filename)
  = parse_csv_file lib content filename.
Proof. unfold parse_csv_file. rewrite lower_idempotent. reflexivity. Qed.

Lemma chars_inj (s t : string) : chars s = chars t -> s = t.
Proof. intros H. rewrite <- (text_chars s), <- (text_chars t), H. reflexivity. Qed.

Lemma length_chars (s : string) : length (chars s) = String.length s.
Proof. induction s as [|c s IH]; simpl; [reflexivity|]. f_equal. exact IH. Qed.

Lemma substring_all (s : string) : substring 0 (String.length s) s = s.
Proof. induction s as [|c s IH]; simpl; [reflexivity|]. f_equal. exact IH. Qed.

Lemma substring_skip (pre : list ascii) (k : nat) (s : string) :
  substring (length pre) k (text pre ++ s)%string = substring 0 k s.
Proof. induction pre as [|c pre IH]; simpl; [reflexivity|exact IH]. Qed.

Lemma substring_cut (s : string) (m : nat) :
  (m <= String.length s)%nat ->
  exists pre, chars s = pre ++ chars (substring m (String.length s - m) s).
Proof.
  revert m; induction s as [|c s IH]; intros m Hm.
  - exists []. destruct m; reflexivity.
  - destruct m as [|m].
    + exists []. rewrite Nat.sub_0_r, substring_all. reflexivity.
    + simpl in Hm. destruct (IH m) as [pre Hpre]; [lia|].
      exists (c :: pre). simpl. f_equal. exact Hpre.
Qed.

(** [s.endswith(suffix)] holds when [s] is some text and then [suffix]. *)
Lemma endswith_spec (s suffix : string) :
  endswith s suffix = true <-> exists pre, chars s = pre ++ chars suffix.
Proof.
  unfold endswith. rewrite andb_true_iff, Nat.leb_le, String.eqb_eq. split.
  - intros [Hle Hsub].
    destruct (substring_cut s (String.length s - String.length suffix))
      as [pre Hpre]; [lia|].
    exists pre. rewrite Hpre. do 2 f_equal. rewrite <- Hsub at 3. f_equal. lia.
  - intros [pre Hpre].
    assert (Hs : s = (text pre ++ suffix)%string).
    { apply chars_inj. rewrite chars_app, chars_text. exact Hpre. }
    assert (Hlen : String.length s
                   = (length pre + String.length suffix)%nat).
    { rewrite <- !length_chars, Hpre, length_app. reflexivity. }
    split; [lia|].
    rewrite Hlen.
    replace (length pre + String.length suffix - String.length suffix)%nat
      with (length pre) by lia.
    rewrite Hs, substring_skip. apply substring_all.
Qed.

Lemma last_map {A B} (f : A -> B) (xs : list A) :
  last (map f xs) = f <$> last xs.
Proof.
  induction xs as [|x [|y xs] IH]; [reflexivity..|]. exact IH.
Qed.

(** The last piece of a split has no separator; it is the whole text when
    the text has none, and what follows the last separator otherwise. *)
Lemma split_chars_last (sep : ascii) (cs : list ascii) :
  exists l,
    last (split_chars sep cs) = Some l
    /\ (sep ∉ l)
    /\ ((cs = l /\ length (split_chars sep cs) = 1%nat)
        \/ (exists pre, cs = pre ++ sep :: l)
           /\ (2 <= length (split_chars sep cs))%nat).
Proof.
  induction cs as [|c cs IH].
  - exists []. repeat split; [apply not_elem_of_nil|]. left; split; reflexivity.
  - destruct IH as (l & Hl & Hno & Hcase). simpl.
    destruct (split_chars sep cs) as [|piece pieces]; [discriminate Hl|].
    destruct (Ascii.eqb c sep) eqn:Ec.
    + apply Ascii.eqb_eq in Ec as ->.
      exists l. repeat split; [exact Hl|exact Hno|].
      right. split; [|simpl; lia].
      destruct Hcase as [[-> _]|[[pre ->] _]];
        [exists []|exists (sep :: pre)]; reflexivity.
    + apply Ascii.eqb_neq in Ec.
      destruct Hcase as [[-> Hone]|[[pre ->] Htwo]].
      * destruct pieces; [|discriminate Hone].
        injection Hl as ->. exists (c :: l). repeat split.
        -- apply not_elem_of_cons; split; congruence.
        -- left; split; reflexivity.
      * destruct pieces as [|p ps]; [simpl in Htwo; lia|].
        exists l. repeat split; [exact Hl|exact Hno|].
        right. split; [|simpl; lia]. exists (c :: pre). reflexivity.
Qed.

Lemma after_last_dot_spec (filename : string) :
  ("."%char ∉ chars (after_last_dot filename))
  /\ ("."%char ∈ chars filename ->
      exists pre,
        chars filename = pre ++ "."%char :: chars (after_last_dot filename)).
Proof.
  unfold after_last_dot, split. rewrite last_map.
  destruct (split_chars_last "." (chars filename))
    as (l & -> & Hno & Hcase). simpl. rewrite chars_text.
  split; [exact Hno|]. intros Hdot.
  destruct Hcase as [[E _]|[Hpre _]]; [|exact Hpre].
  rewrite E in Hdot. destruct (Hno Hdot).
Qed.

(** What follows the last dot is determined by the text. *)
Lemma after_dot_unique (p p' e e' : list ascii) :
  p ++ "."%char :: e = p' ++ "."%char :: e' ->
  "."%char ∉ e -> "."%char ∉ e' -> e = e'.
Proof.
  revert p'; induction p as [|c p IH]; intros [|c' p'] E He He'; simpl in E.
  - congruence.
  - injection E as <- ->. contradiction He.
    apply elem_of_app; right; apply list_elem_of_here.
  - injection E as -> <-. contradiction He'.
    apply elem_of_app; right; apply list_elem_of_here.
  - injection E as _ E. eauto.
Qed.

(** On a name with a dot, the parser's test of an extension without a dot
    of its own is the test of the route. *)
Lemma endswith_extension (filename e : string) :
  "."%char ∈ chars filename -> "."%char ∉ chars e ->
  endswith (lower filename) ("." ++ e)
  = bool_decide (lower (after_last_dot filename) = e).
Proof.
  intros Hdot He.
  destruct (after_last_dot_spec filename) as [Hno Hpre].
  destruct (Hpre Hdot) as [pre Hname].
  assert (Hlow : chars (lower filename)
                 = map lower_char pre
                   ++ "."%char :: chars (lower (after_last_dot filename))).
  { rewrite !chars_lower, Hname, map_app. reflexivity. }
  apply eq_true_iff_eq. rewrite endswith_spec, bool_decide_eq_true. split.
  - intros [pre' Hpre']. apply chars_inj.
    rewrite Hlow in Hpre'. simpl in Hpre'.
    apply (after_dot_unique _ _ _ _ Hpre'); [|exact He].
    intros H. apply (proj1 (dot_lower _)) in H. exact (Hno H).
  - intros <-. exists (map lower_char pre). exact Hlow.
Qed.

Lemma endswith_no_dot (filename e : string) :
  "."%char ∉ chars filename -> endswith (lower filename) ("." ++ e) = false.
Proof.
  intros Hno. apply not_true_iff_false. rewrite endswith_spec.
  intros [pre Hpre]. apply Hno, dot_lower. rewrite Hpre.
  apply elem_of_app; right; apply list_elem_of_here.
Qed.

(** The chain of tests of the parser, read as a choice by the extension. *)
Lemma reader_choice {A} (ext : string) (a b c d : A) :
  (if bool_decide (ext = "csv") then a
   else if bool_decide (ext = "xlsx") || bool_decide (ext = "xls") then b
   else if bool_decide (ext = "pdf") then c
   else d)
  = match ext with
    | "csv" => a
    | "xlsx" | "xls" => b
    | "pdf" => c
    | _ => d
    end.
Proof.
  repeat case_bool_decide; subst; try reflexivity; simpl.
  repeat (first
    [ reflexivity
    | congruence
    | destruct ext as [|[[] [] [] [] [] [] [] []] ext] ]).
Qed.

(** X19.  On a file name with a dot the parser chooses its reader by the
    extension the route checks: the CSV reader for [.csv], the Excel reader
    for [.xlsx] and [.xls], the PDF reader for [.pdf], and for every other
    extension it raises the [ValueError] of an unsupported format. *)
Theorem reader_follows_the_extension (lib : Library) (content : bytes)
    (filename : string) :
  "."%char ∈ chars filename ->
  parse_csv_file lib content filename
  = match lower (after_last_dot filename) with
    | "csv" => read_csv lib content ≫= normalize
    | "xlsx" | "xls" => read_excel lib content ≫= normalize
    | "pdf" =>
        match pdfplumber lib with
        | None =>
            Raise (Exc ValueError
                     "PDF support not available. Please install pdfplumber.")
        | Some _ => _parse_pdf_file lib content ≫= normalize
        end
    | _ =>
        Raise (Exc ValueError
                 "Unsupported file format. Please upload CSV, Excel (.xlsx, .xls) or PDF file.")
    end
  /\ (("." ++ lower (after_last_dot filename))%string ∈ allowed_extensions
      <-> lower (after_last_dot filename) ∈ ["csv"; "xlsx"; "xls"; "pdf"]).
Proof.
  intros Hdot. split.
  - unfold parse_csv_file.
    change ".csv" with ("." ++ "csv")%string.
    change ".xlsx" with ("." ++ "xlsx")%string.
    change ".xls" with ("." ++ "xls")%string.
    change ".pdf" with ("." ++ "pdf")%string.
    rewrite !(endswith_extension filename) by (trivial; vm_compute; absent).
    rewrite <- reader_choice.
    repeat case_bool_decide; simpl; try reflexivity.
    destruct (pdfplumber lib); reflexivity.
  - unfold allowed_extensions. rewrite !elem_of_cons, !elem_of_nil.
    split; intros H; repeat destruct H as [H|H]; try contradiction;
      first [injection H as H | rewrite H]; auto.
Qed.

Lemma reader_follows_the_extension_witness :
  parse_csv_file (csv_library one_regular) [] "Customers.CSV"
  = normalize one_regular
  /\ (".csv" ∈ allowed_extensions <-> "csv" ∈ ["csv"; "xlsx"; "xls"; "pdf"]).
Proof.
  apply (reader_follows_the_extension (csv_library one_regular) []
           "Customers.CSV").
  vm_compute. present.
Defined.

(** X20.  A file name without a dot is never parsed: the parser raises the
    [ValueError] of an unsupported format whatever the name is.  The route
    lets such a name through when the whole name is an allowed extension
    without its dot, stores the file, and then answers 400 with the message
    of the parser. *)
Theorem name_without_dot_is_refused (lib : Library) (fx : Effects)
    (db : Database) (filename : string) (content : bytes) (user : string) :
  "."%char ∉ chars filename ->
  parse_csv_file lib content filename
  = Raise (Exc ValueError
             "Unsupported file format. Please upload CSV, Excel (.xlsx, .xls) or PDF file.")
  /\ (("." ++ lower (after_last_dot filename))%string ∈ allowed_extensions ->
      content ≠ [] ->
      (exists stored, upload_file lib filename content = Ok stored) ->
      upload_route lib fx db filename content user
      = Raise (HTTPExc 400
                 "Unsupported file format. Please upload CSV, Excel (.xlsx, .xls) or PDF file.")).
Proof.
  intros Hno.
  assert (Hparse : parse_csv_file lib content filename
                   = Raise (Exc ValueError
                              "Unsupported file format. Please upload CSV, Excel (.xlsx, .xls) or PDF file.")).
  { unfold parse_csv_file.
    change ".csv" with ("." ++ "csv")%string.
    change ".xlsx" with ("." ++ "xlsx")%string.
    change ".xls" with ("." ++ "xls")%string.
    change ".pdf" with ("." ++ "pdf")%string.
    rewrite !endswith_no_dot by exact Hno. reflexivity. }
  split; [exact Hparse|].
  intros Hext Hcontent [[url fid] Hstored].
  unfold upload_route.
  rewrite bool_decide_eq_true_2 by exact Hext.
  rewrite bool_decide_eq_false_2 by (destruct content; [congruence|discriminate]).
  rewrite Hstored. simpl. unfold upload_customers. rewrite Hparse.
  reflexivity.
Qed.

Lemma name_without_dot_is_refused_witness :
  parse_csv_file (csv_library one_regular) [Byte.x61] "csv"
  = Raise (Exc ValueError
             "Unsupported file format. Please upload CSV, Excel (.xlsx, .xls) or PDF file.")
  /\ upload_route (csv_library one_regular) clock no_customers "csv"
                  [Byte.x61] "u1"
     = Raise (HTTPExc 400
                "Unsupported file format. Please upload CSV, Excel (.xlsx, .xls) or PDF file.").
Proof.
  destruct (name_without_dot_is_refused (csv_library one_regular) clock
              no_customers "csv" [Byte.x61] "u1") as [Hparse Hroute].
  - vm_compute. absent.
  - split; [exact Hparse|]. apply Hroute.
    + vm_compute. present.
    + discriminate.
    + eexists. reflexivity.
Defined.

(** ** Normalising twice *)

Lemma isspace_lower_char (c : ascii) : isspace (lower_char c) = isspace c.
Proof. destruct c as [[] [] [] [] [] [] [] []]; reflexivity. Qed.

Lemma lower_char_underscore (c : ascii) :
  lower_char (if Ascii.eqb c " " then "_"%char else c)
  = if Ascii.eqb (lower_char c) " " then "_"%char else lower_char c.
Proof. destruct c as [[] [] [] [] [] [] [] []]; reflexivity. Qed.

Lemma isspace_underscore (c : ascii) :
  isspace c = false ->
  isspace (if Ascii.eqb c " " then "_"%char else c) = false.
Proof. destruct c as [[] [] [] [] [] [] [] []]; trivial. Qed.

Lemma underscore_idempotent (c : ascii) :
  (let c' := if Ascii.eqb c " " then "_"%char else c in
   if Ascii.eqb c' " " then "_"%char else c')
  = if Ascii.eqb c " " then "_"%char else c.
Proof. destruct c as [[] [] [] [] [] [] [] []]; reflexivity. Qed.

Lemma lstrip_chars_map (f : ascii -> ascii) (cs : list ascii) :
  (forall c, isspace (f c) = isspace c) ->
  lstrip_chars (map f cs) = map f (lstrip_chars cs).
Proof.
  intros Hf. induction cs as [|c cs IH]; [reflexivity|].
  simpl. rewrite Hf. destruct (isspace c); [exact IH|reflexivity].
Qed.

Lemma strip_chars_map (f : ascii -> ascii) (cs : list ascii) :
  (forall c, isspace (f c) = isspace c) ->
  strip_chars (map f cs) = map f (strip_chars cs).
Proof.
  intros Hf. unfold strip_chars.
  rewrite lstrip_chars_map, <- map_rev, lstrip_chars_map, <- map_rev
    by assumption.
  reflexivity.
Qed.

(** A stripped text begins and ends with a character that is no
    whitespace. *)
Lemma strip_chars_trimmed (cs : list ascii) :
  lstrip_chars (strip_chars cs) = strip_chars cs
  /\ lstrip_chars (rev (strip_chars cs)) = rev (strip_chars cs).
Proof.
  unfold strip_chars.
  set (A := lstrip_chars cs). set (B := lstrip_chars (rev A)).
  rewrite rev_involutive. split; [|apply lstrip_chars_id, lstrip_chars_head].
  apply lstrip_chars_id.
  destruct (lstrip_chars_suffix (rev A)) as [pre Hpre]. fold B in Hpre.
  assert (HA : A = rev B ++ rev pre)
    by (rewrite <- rev_app_distr, <- Hpre, rev_involutive; reflexivity).
  pose proof (lstrip_chars_head cs) as Hhead. fold A in Hhead.
  destruct (rev B) as [|b bs]; [exact I|].
  rewrite HA in Hhead. exact Hhead.
Qed.

Lemma lstrip_chars_underscore (cs : list ascii) :
  lstrip_chars cs = cs ->
  lstrip_chars (map (fun c => if Ascii.eqb c " " then "_"%char else c) cs)
  = map (fun c => if Ascii.eqb c " " then "_"%char else c) cs.
Proof.
  intros H. pose proof (lstrip_chars_head cs) as Hhead. rewrite H in Hhead.
  destruct cs as [|c cs]; [reflexivity|].
  apply lstrip_chars_id. simpl. apply isspace_underscore, Hhead.
Qed.

(** The header transform changes no label it has produced. *)
Lemma standardize_idempotent (l : string) :
  standardize (standardize l) = standardize l.
Proof.
  unfold standardize, replace_char, strip, lower.
  rewrite !chars_text. f_equal.
  set (r := fun c : ascii => if Ascii.eqb c " " then "_"%char else c).
  set (xs := strip_chars (map lower_char (chars l))).
  assert (Hlow : map lower_char (map r xs) = map r xs).
  { rewrite map_map.
    rewrite (map_ext _ (fun c => r (lower_char c)))
      by (intros; apply lower_char_underscore).
    rewrite <- (map_map lower_char r). f_equal. unfold xs.
    rewrite <- strip_chars_map by apply isspace_lower_char.
    rewrite map_map. f_equal. apply map_ext.
    intros; apply lower_char_idempotent. }
  rewrite Hlow.
  destruct (strip_chars_trimmed (map lower_char (chars l))) as [Hl Hr].
  fold xs in Hl, Hr. subst r.
  set (r := fun c : ascii => if Ascii.eqb c " " then "_"%char else c) at 1.
  assert (Hstrip :
            strip_chars
              (map (fun c => if Ascii.eqb c " " then "_"%char else c) xs)
            = map (fun c => if Ascii.eqb c " " then "_"%char else c) xs).
  { unfold strip_chars.
    rewrite (lstrip_chars_underscore xs Hl), <- map_rev.
    rewrite (lstrip_chars_underscore (rev xs) Hr), <- map_rev.
    rewrite rev_involutive. reflexivity. }
  rewrite Hstrip, map_map. apply map_ext.
  intros c. subst r. apply (underscore_idempotent c).
Qed.

Lemma rename_cases (l : string) :
  rename l = l
  \/ rename l ∈ ["name"; "phone"; "email"; "total_quantity";
                 "purchase_count"; "order_value"].
Proof.
  unfold rename. destruct (column_mapping !! l) as [v|] eqn:E; [|left; reflexivity].
  right. simpl. unfold column_mapping in E.
  apply elem_of_list_to_map_2 in E.
  repeat (apply elem_of_cons in E as [E|E]; [injection E as _ <-; present|]).
  inversion E.
Qed.

(** The header transform and the renaming change no label they have
    produced. *)
Lemma canonical_label_fixed (l : string) :
  rename (standardize (rename (standardize l))) = rename (standardize l).
Proof.
  destruct (rename_cases (standardize l)) as [E|E].
  - rewrite E, standardize_idempotent. exact E.
  - repeat (apply elem_of_cons in E as [->|E]; [vm_compute; reflexivity|]).
    inversion E.
Qed.

Lemma clean_phone_idempotent (s : string) :
  clean_phone (clean_phone s) = clean_phone s.
Proof.
  unfold clean_phone. rewrite chars_text. f_equal.
  induction (chars s) as [|c cs IH]; [reflexivity|].
  rewrite filter_cons. destruct (decide (phone_junk c = false)) as [Hc|Hc].
  - rewrite filter_cons, decide_True by exact Hc. f_equal. exact IH.
  - exact IH.
Qed.

Lemma fill_missing_present (l : string) (v : value) (df : DataFrame) :
  l ∈ columns df -> fill_missing l v df = df.
Proof.
  intros H. unfold fill_missing, has_column.
  rewrite bool_decide_eq_true_2 by exact H. reflexivity.
Qed.

(** Writing into a row the cell it holds changes nothing. *)
Lemma put_cell_same (labels : list string) (l : string) (v : value)
    (r : list value) :
  length r = length labels -> l ∈ labels ->
  Forall (fun x => x = v) (select l (zip labels r)) ->
  put_cell labels l v r = r.
Proof.
  intros Hlen Hin Hall. unfold put_cell.
  rewrite bool_decide_eq_true_2 by exact Hin. clear Hin.
  revert r Hlen Hall; induction labels as [|k labels IH]; intros [|x r] Hlen Hall;
    try discriminate; [reflexivity|].
  simpl zip in Hall. rewrite select_cons in Hall. simpl.
  case_bool_decide as Hk.
  - rewrite decide_True in Hall by exact Hk.
    apply Forall_cons in Hall as [-> Hall].
    f_equal. apply IH; [simpl in Hlen; lia|exact Hall].
  - rewrite decide_False in Hall by exact Hk.
    f_equal. apply IH; [simpl in Hlen; lia|exact Hall].
Qed.

Lemma clean_phones_fixed (df : DataFrame) :
  well_formed df ->
  count_occ string_dec (columns df) "phone" = 1%nat ->
  Forall (fun r => exists s,
            select "phone" (zip (columns df) r) = [VStr (clean_phone s)])
         (rows df) ->
  clean_phones df = Ok df.
Proof.
  intros Hwf Hone Hcells. unfold clean_phones, getitem. rewrite Hone. simpl.
  assert (Hin : "phone" ∈ columns df)
    by (apply count_occ_elem_of; rewrite Hone; lia).
  unfold set_column, column, series_rows, labels_with.
  rewrite bool_decide_eq_true_2 by exact Hin.
  destruct df as [labels rs]. unfold well_formed in Hwf. simpl in *.
  assert (H : exists strs,
             mapM astype_str
                  (flat_map (select "phone") (map (zip labels) rs))
             = Ok strs
             /\ zip_with (fun r v => put_cell labels "phone" v r) rs
                  (map (fun s => VStr (clean_phone s)) strs) = rs).
  { clear Hone. induction rs as [|r rs IH]; [exists []; split; reflexivity|].
    apply Forall_cons in Hwf as [Hr Hwf].
    apply Forall_cons in Hcells as [[s Hs] Hcells].
    destruct (IH Hwf Hcells) as (strs & Hstrs & Hrows).
    exists (clean_phone s :: strs). simpl. rewrite Hs. simpl.
    rewrite Hstrs. simpl. split; [reflexivity|].
    rewrite Hrows, clean_phone_idempotent. f_equal.
    apply put_cell_same; [exact Hr|exact Hin|].
    rewrite Hs. repeat constructor. }
  destruct H as (strs & -> & Hrows). simpl. rewrite Hrows. reflexivity.
Qed.

(** X21.  Normalisation is idempotent: a frame that the normalisation of a
    well-formed sheet returns is returned unchanged when it is normalised
    again, its labels, its phones and its filled columns as they are. *)
Theorem normalisation_is_idempotent (raw df : DataFrame) :
  well_formed raw -> normalize raw = Ok df -> normalize df = Ok df.
Proof.
  intros Hwf H.
  pose proof (well_formed_normalize raw df Hwf H) as Hwfd.
  pose proof (normalized_phone_cells raw df Hwf H) as Hph.
  apply normalize_Ok in H as (Hname & Hphone & df1 & H1 & ->).
  apply clean_phones_Ok in H1 as (Hcols & _ & Hone & _);
    [|apply well_formed_canonical; assumption].
  simpl in Hcols, Hone.
  set (df := fill_defaults df1) in *.
  assert (Hin : forall l,
             l ∈ ["name"; "phone"; "email"; "total_quantity";
                  "purchase_count"; "order_value"] -> l ∈ columns df).
  { intros l Hl. apply columns_fill_defaults. rewrite Hcols.
    repeat (apply elem_of_cons in Hl as [->|Hl];
            [first [left; assumption | right; present]|]).
    inversion Hl. }
  assert (Hlabels : canonical_labels df = columns df).
  { unfold canonical_labels. rewrite map_map.
    rewrite <- (map_id (columns df)) at 2.
    apply map_ext_in. intros l Hl.
    apply list_elem_of_In, columns_fill_defaults in Hl as [Hl|Hl].
    - rewrite Hcols in Hl. unfold canonical_labels in Hl.
      rewrite map_map in Hl.
      apply list_elem_of_In, in_map_iff in Hl as (l0 & <- & _).
      apply canonical_label_fixed.
    - repeat (apply elem_of_cons in Hl as [->|Hl]; [vm_compute; reflexivity|]).
      inversion Hl. }
  assert (Hone' : count_occ string_dec (columns df) "phone" = 1%nat).
  { unfold df, fill_defaults. rewrite !columns_fill_missing.
    rewrite !count_occ_labels_with by discriminate.
    rewrite Hcols. exact Hone. }
  rewrite normalize_unfold. cbv zeta. rewrite Hlabels.
  replace (mkDF (columns df) (rows df)) with df by (destruct df; reflexivity).
  replace (filter (fun col => col ∉ columns df) required_cols) with (@nil string)
    by (symmetry; apply required_present; split; apply Hin; present).
  unfold has_column. rewrite bool_decide_eq_true_2 by (apply Hin; present).
  rewrite clean_phones_fixed by assumption. simpl.
  rewrite (fill_missing_present "email") by (apply Hin; present).
  rewrite (fill_missing_present "total_quantity") by (apply Hin; present).
  rewrite (fill_missing_present "purchase_count") by (apply Hin; present).
  rewrite (fill_missing_present "order_value") by (apply Hin; present).
  reflexivity.
Qed.

Lemma normalisation_is_idempotent_witness :
  normalize punctuated_phone_normalized = Ok punctuated_phone_normalized.
Proof.
  apply (normalisation_is_idempotent punctuated_phone).
  - repeat constructor.
  - vm_compute. reflexivity.
Defined.
